(** * Reminder scheduler of the task-tracking CRM (app.py)

    A shallow embedding of the deadline reminder engine: the clock and
    timezone helpers ([get_uzb_now], [is_overdue]), the Telegram channel
    ([send_telegram_message]), one scan of [check_reminders] with its
    transaction on the SQLite store, the request handlers that write the
    [tasks] table, and the start-up guard [start_reminder_thread].

    Conventions.
    - A [datetime] is the value of its naive calendar fields, counted in
      microseconds from a fixed origin, plus an optional UTC offset (also
      in microseconds): Python's [tzinfo] is [None] for a naive value.
    - A [timedelta] is a number of microseconds (a [Z]).
    - [minutes_left] is [total_seconds() / 60]. Python computes it in
      binary floating point; the embedding uses exact rationals. The only
      use of the value is the comparison with 115, 125, 25, 35, 3 and 7:
      these bounds are hit exactly by whole numbers of microseconds, and
      correctly rounded division is monotone, so every comparison comes
      out the same on the float as on the rational.
    - The [tasks] and [users] tables are finite maps from the primary key
      to the row.
    - The pictographs at the head of the message templates are left out of
      the strings; the wording and the embedded title are kept. *)

From Stdlib Require Import ZArith QArith Bool List Lia.
From stdpp Require Import gmap strings list fin_maps.

Open Scope Z_scope.

(* ===================================================================== *)
(** ** Clock and timezone utility *)
(* ===================================================================== *)

Module Clock.

Record datetime := mk_datetime { wall : Z; tzinfo : option Z }.

Definition US_PER_SECOND : Z := 1000000.
Definition US_PER_MINUTE : Z := 60 * US_PER_SECOND.
Definition US_PER_HOUR : Z := 60 * US_PER_MINUTE.

(** [UZB_TIMEZONE = timezone(timedelta(hours=5))] *)
Definition UZB_TIMEZONE : Z := 5 * US_PER_HOUR.

(** [datetime.now(UZB_TIMEZONE)]: the argument is the instant of the
    call, in microseconds of UTC. *)
Definition get_uzb_now (utc : Z) : datetime :=
  {| wall := utc + UZB_TIMEZONE; tzinfo := Some UZB_TIMEZONE |}.

(** [dt.replace(tzinfo=tz)]: the calendar fields stay, the zone is set. *)
Definition replace_tzinfo (dt : datetime) (tz : Z) : datetime :=
  {| wall := wall dt; tzinfo := Some tz |}.


(** [a - b] on datetimes: [None] is the [TypeError] Python raises when a
    naive and an aware value are mixed. *)
Definition dt_sub (a b : datetime) : option Z :=
  match tzinfo a, tzinfo b with
  | Some oa, Some ob => Some ((wall a - oa) - (wall b - ob))
  | None, None => Some (wall a - wall b)
  | _, _ => None
  end.

(** [a < b] on datetimes, with the same [TypeError]. *)
Definition dt_lt (a b : datetime) : option bool :=
  match tzinfo a, tzinfo b with
  | Some oa, Some ob => Some (wall a - oa <? wall b - ob)
  | None, None => Some (wall a <? wall b)
  | _, _ => None
  end.

(** The two lines
    [if deadline.tzinfo is None: deadline = deadline.replace(tzinfo=UZB_TIMEZONE)]
    shared by [is_overdue] and [check_reminders]. *)
Definition localize (deadline : datetime) : datetime :=
  match tzinfo deadline with
  | None => replace_tzinfo deadline UZB_TIMEZONE
  | Some _ => deadline
  end.

(** [is_overdue(deadline)] called at instant [utc]. *)
Definition is_overdue (utc : Z) (deadline : option datetime) : option bool :=
  match deadline with
  | None => Some false
  | Some deadline =>
      let now := get_uzb_now utc in
      let deadline := localize deadline in
      dt_lt deadline now
  end.

(** [timedelta.total_seconds()] and the division by 60. *)
Definition total_seconds (td : Z) : Q := (inject_Z td / inject_Z US_PER_SECOND)%Q.
Definition minutes_of (td : Z) : Q := (total_seconds td / 60)%Q.

End Clock.

Import Clock.

(* ===================================================================== *)
(** ** The store: rows of [users] and [tasks] *)
(* ===================================================================== *)

Inductive status := pending | completed.

Inductive role := boss | xodim.

Record user := mk_user {
  username : string;
  user_role : role;
  full_name : option string;
  telegram_chat_id : option string
}.

Record task := mk_task {
  title : string;
  description : option string;
  assigned_to : option Z;
  deadline : option datetime;
  task_status : status;
  completion_note : option string;
  completed_at : option datetime;
  reminder_2h_sent : bool;
  reminder_30m_sent : bool;
  reminder_5m_sent : bool
}.

(** [task_seq] is the AUTOINCREMENT counter of [tasks] (the row of
    [sqlite_sequence]): the largest id an INSERT has given out. *)
Record db := mk_db {
  users : gmap Z user;
  tasks : gmap Z task;
  task_seq : Z
}.

Inductive threshold := T2h | T30m | T5m.

Definition flag (T : threshold) (t : task) : bool :=
  match T with
  | T2h => reminder_2h_sent t
  | T30m => reminder_30m_sent t
  | T5m => reminder_5m_sent t
  end.

(** [UPDATE tasks SET reminder_<T>_sent = 1] on one row. *)
Definition mark_sent (T : threshold) (t : task) : task :=
  match T with
  | T2h =>
      mk_task (title t) (description t) (assigned_to t) (deadline t) (task_status t)
        (completion_note t) (completed_at t) true (reminder_30m_sent t) (reminder_5m_sent t)
  | T30m =>
      mk_task (title t) (description t) (assigned_to t) (deadline t) (task_status t)
        (completion_note t) (completed_at t) (reminder_2h_sent t) true (reminder_5m_sent t)
  | T5m =>
      mk_task (title t) (description t) (assigned_to t) (deadline t) (task_status t)
        (completion_note t) (completed_at t) (reminder_2h_sent t) (reminder_30m_sent t) true
  end.

(** Python truth value of a [TEXT] column or of a string setting. *)
Definition nonempty (s : string) : bool := negb (String.eqb s EmptyString).

Definition truthy (s : option string) : bool :=
  match s with
  | Some s => nonempty s
  | None => false
  end.

(** One row of the scheduler's query: [t.*] joined with
    [u.telegram_chat_id]. *)
Record row := mk_row {
  row_id : Z;
  row_task : task;
  row_chat : option string
}.

Definition is_pending (t : task) : bool :=
  match task_status t with pending => true | completed => false end.

Definition has_deadline (t : task) : bool :=
  match deadline t with Some _ => true | None => false end.

(** [LEFT JOIN users u ON t.assigned_to = u.id]: the chat id of the
    assignee, [NULL] when there is no such user. *)
Definition join_chat (us : gmap Z user) (t : task) : option string :=
  match assigned_to t with
  | Some uid =>
      match us !! uid with
      | Some u => telegram_chat_id u
      | None => None
      end
  | None => None
  end.

(** [SELECT ... WHERE t.status = 'pending' AND t.deadline IS NOT NULL]. *)
Definition select_pending (d : db) : list row :=
  omap (fun kt : Z * task =>
          if is_pending kt.2 && has_deadline kt.2
          then Some (mk_row kt.1 kt.2 (join_chat (users d) kt.2))
          else None)
       (map_to_list (tasks d)).

(* ===================================================================== *)
(** ** Threshold windows *)
(* ===================================================================== *)

(** The three conditions of the [if / elif / elif] chain of
    [check_reminders], in the order of the source. *)
Definition candidate (minutes_left : Q) (t : task) : option threshold :=
  if Qle_bool 115 minutes_left && Qle_bool minutes_left 125 && negb (reminder_2h_sent t)
  then Some T2h
  else if Qle_bool 25 minutes_left && Qle_bool minutes_left 35 && negb (reminder_30m_sent t)
  then Some T30m
  else if Qle_bool 3 minutes_left && Qle_bool minutes_left 7 && negb (reminder_5m_sent t)
  then Some T5m
  else None.

Definition LF : string := String (Ascii.ascii_of_nat 10) EmptyString.

(** The f-string built in the branch of threshold [T]. *)
Definition reminder_message (T : threshold) (task_title : string) : string :=
  match T with
  | T2h =>
      "<b>Eslatma!</b>" +:+ LF +:+ LF +:+ task_title +:+ LF
        +:+ "Muddat: 2 soatdan kam qoldi!"
  | T30m =>
      "<b>Shoshiling!</b>" +:+ LF +:+ LF +:+ task_title +:+ LF
        +:+ "Muddat: 30 daqiqadan kam qoldi!"
  | T5m =>
      "<b>DIQQAT!</b>" +:+ LF +:+ LF +:+ task_title +:+ LF
        +:+ "Muddat: 5 daqiqadan kam qoldi!"
  end.

(* ===================================================================== *)
(** ** The Telegram channel *)
(* ===================================================================== *)

Record config := mk_config {
  TELEGRAM_BOT_TOKEN : string;
  BOSS_TELEGRAM_CHAT_ID : string
}.

Definition TELEGRAM_AVAILABLE : bool := true.

(** What a run leaves behind for an observer.
    - [EvSend id T chat text ok]: the scheduler called
      [send_telegram_message(chat, text)] for threshold [T] of task [id],
      and the call returned [ok].
    - [EvPost chat text]: [http_requests.post] was called.
    - [EvLog what]: a line was printed. *)
Inductive event :=
| EvSend (id : Z) (T : threshold) (chat_id : option string) (text : string) (ok : bool)
| EvPost (chat_id : option string) (text : string)
| EvLog (what : string).

(** The part of the world one scan depends on.
    - [connect_ok]: [get_db()] returns; [select_ok]: the query and
      [fetchall()] return; otherwise they raise.
    - [http_post n]: the status code of the [n]-th POST of the scan, or
      [None] when [http_requests.post] raises (time-out, no route, ...).
    - [update_ok id T]: the [UPDATE] of flag [T] of task [id] returns;
      otherwise it raises (locked or read-only database, full disk, ...).
    - [commit_ok]: [conn.commit()] returns. *)
Record env := mk_env {
  connect_ok : bool;
  select_ok : bool;
  http_post : nat -> option Z;
  update_ok : Z -> threshold -> bool;
  commit_ok : bool
}.

(** [send_telegram_message(chat_id, message)]. [k] counts the POSTs made
    so far; the result is the returned boolean, the new count and the
    events of the call. *)
Definition send_telegram_message (cfg : config) (post : nat -> option Z) (k : nat)
    (chat_id : option string) (message : string) : bool * nat * list event :=
  if negb (nonempty (TELEGRAM_BOT_TOKEN cfg)) || negb (truthy chat_id)
     || negb TELEGRAM_AVAILABLE
  then (false, k, [])
  else
    match post k with
    | Some status_code => (status_code =? 200, S k, [EvPost chat_id message])
    | None => (false, S k, [EvPost chat_id message; EvLog "Telegram xato"])
    end.

(* ===================================================================== *)
(** ** One scan of [check_reminders] *)
(* ===================================================================== *)

(** How a block of statements ends: it runs to its end, or an exception
    leaves it. *)
Inductive outcome := Done | Raised (what : string).

(** The connection of the scan: the [tasks] table as the open transaction
    sees it, and the number of POSTs made so far. *)
Record cstate := mk_cstate {
  conn : gmap Z task;
  posts : nat
}.

(** [deadline - now] after the zone of a naive deadline was set. *)
Definition time_left (now dl : datetime) : option Z := dt_sub (localize dl) now.

(** The body of [for task in tasks]: how it ends, the connection after it
    and the events it adds. *)
Definition process_task (cfg : config) (e : env) (now : datetime)
    (r : row) (st : cstate) : outcome * cstate * list event :=
  let t := row_task r in
  match deadline t with
  | None => (Done, st, [])
  | Some dl =>
      if negb (truthy (row_chat r)) then (Done, st, [])
      else
        match time_left now dl with
        | None => (Raised "TypeError", st, [])
        | Some td =>
            let minutes_left := minutes_of td in
            match candidate minutes_left t with
            | None => (Done, st, [])
            | Some T =>
                let message := reminder_message T (title t) in
                let '(ok, k, evs) :=
                  send_telegram_message cfg (http_post e) (posts st) (row_chat r) message in
                let tr := evs ++ [EvSend (row_id r) T (row_chat r) message ok] in
                if ok then
                  if update_ok e (row_id r) T
                  then (Done, mk_cstate (alter (mark_sent T) (row_id r) (conn st)) k, tr)
                  else (Raised "OperationalError", mk_cstate (conn st) k, tr)
                else (Done, mk_cstate (conn st) k, tr)
            end
        end
  end.

(** The [for] loop: an exception in one body leaves the loop. *)
Fixpoint for_each_task (cfg : config) (e : env) (now : datetime)
    (rows : list row) (st : cstate) : outcome * cstate * list event :=
  match rows with
  | [] => (Done, st, [])
  | r :: rows' =>
      match process_task cfg e now r st with
      | (Done, st1, evs) =>
          let '(o, st2, evs') := for_each_task cfg e now rows' st1 in
          (o, st2, evs ++ evs')
      | (Raised what, st1, evs) => (Raised what, st1, evs)
      end
  end.

Record cycle_result := mk_cycle_result {
  after : db;
  events : list event;
  result : outcome
}.

(** The body of the [try]: connect, read the clock, query, loop, commit,
    close. The rows come in the order of the table's map (the query has no
    ORDER BY). Writes that were not committed are lost with the
    connection. *)
Definition scan (cfg : config) (e : env) (utc : Z) (d : db) : cycle_result :=
  if negb (connect_ok e) then mk_cycle_result d [] (Raised "OperationalError")
  else
    let now := get_uzb_now utc in
    if negb (select_ok e) then mk_cycle_result d [] (Raised "OperationalError")
    else
      match for_each_task cfg e now (select_pending d) (mk_cstate (tasks d) 0%nat) with
      | (Done, st, evs) =>
          if commit_ok e
          then mk_cycle_result (mk_db (users d) (conn st) (task_seq d)) evs Done
          else mk_cycle_result d evs (Raised "OperationalError")
      | (Raised what, st, evs) => mk_cycle_result d evs (Raised what)
      end.

(** [try: ... except Exception as e: print(...)]: the exception is printed
    and the statement ends normally. [result] keeps, for the observer, how
    the body of the [try] ended. *)
Definition cycle (cfg : config) (e : env) (utc : Z) (d : db) : cycle_result :=
  let r := scan cfg e utc d in
  match result r with
  | Done => r
  | Raised what =>
      mk_cycle_result (after r) (events r ++ [EvLog ("Reminder xato: " +:+ what)])
        (Raised what)
  end.

(** [while True: <cycle>; time.sleep(60)], unrolled over the worlds of the
    successive scans (environment and instant of each): the store at the
    end and the record of every scan that ran. *)
Fixpoint check_reminders (cfg : config) (worlds : list (env * Z)) (d : db)
    : db * list cycle_result :=
  match worlds with
  | [] => (d, [])
  | (e, utc) :: worlds' =>
      let r := cycle cfg e utc d in
      let '(d', rest) := check_reminders cfg worlds' (after r) in
      (d', r :: rest)
  end.

(* ===================================================================== *)
(** ** The request handlers that write [tasks] *)
(* ===================================================================== *)

Definition max_id (m : gmap Z task) : Z :=
  map_fold (fun k _ acc => Z.max k acc) 0 m.

(** The id an [INSERT] gets from AUTOINCREMENT: one more than the largest
    id that is or ever was in the table. *)
Definition next_id (d : db) : Z := Z.max (task_seq d) (max_id (tasks d)) + 1.

(** [x or None] on a stripped form field. *)
Definition or_none (s : string) : option string :=
  if nonempty s then Some s else None.

(** The integers SQLite stores are signed and 64 bits wide: binding any
    other Python [int] to a [?] raises [OverflowError] before the statement
    runs. *)
Definition fits_int64 (z : Z) : bool := (- 2 ^ 63 <=? z) && (z <? 2 ^ 63).

(** [add_task], POST. [assignee] is [None] when the form field is missing
    or empty or is no number (then [int()] raises and nothing is
    inserted); [due] is the parsed deadline, a naive datetime, or [None].
    A number that does not fit SQLite's INTEGER makes the [INSERT] raise
    [OverflowError], which the handler's [except Exception] swallows:
    nothing is inserted either. The new row takes the column defaults:
    pending, the three flags 0. *)
Definition add_task (task_title task_description : string) (assignee : option Z)
    (due : option Z) (d : db) : db :=
  match assignee with
  | Some uid =>
      if nonempty task_title && fits_int64 uid then
        let id := next_id d in
        mk_db (users d)
          (<[id := mk_task task_title (or_none task_description) (Some uid)
                     (option_map (fun w => mk_datetime w None) due) pending None None
                     false false false]> (tasks d))
          id
      else d
  | None => d
  end.

(** [edit_task], POST:
    [UPDATE tasks SET title = ?, description = ?, assigned_to = ?, deadline = ? WHERE id = ?].
    As in [add_task], an assignee outside SQLite's INTEGER makes the
    statement raise inside the handler's [try], and nothing is written. *)
Definition edit_task (id : Z) (task_title task_description : string) (assignee : option Z)
    (due : option Z) (d : db) : db :=
  match tasks d !! id with
  | None => d
  | Some _ =>
      match assignee with
      | Some uid =>
          if nonempty task_title && fits_int64 uid then
            mk_db (users d)
              (alter (fun t =>
                        mk_task task_title (or_none task_description) (Some uid)
                          (option_map (fun w => mk_datetime w None) due)
                          (task_status t) (completion_note t) (completed_at t)
                          (reminder_2h_sent t) (reminder_30m_sent t) (reminder_5m_sent t))
                     id (tasks d))
              (task_seq d)
          else d
      | None => d
      end
  end.

(** [complete_task], called by the logged-in user [session_user] at
    instant [utc]:
    [UPDATE tasks SET status = 'completed', completion_note = ?, completed_at = ? WHERE id = ?]
    when the task is assigned to the caller. *)
Definition complete_task (id : Z) (session_user : Z) (note : string) (utc : Z) (d : db) : db :=
  match tasks d !! id with
  | Some t =>
      if bool_decide (assigned_to t = Some session_user) then
        mk_db (users d)
          (alter (fun t =>
                    mk_task (title t) (description t) (assigned_to t) (deadline t)
                      completed (or_none note) (Some (get_uzb_now utc))
                      (reminder_2h_sent t) (reminder_30m_sent t) (reminder_5m_sent t))
                 id (tasks d))
          (task_seq d)
      else d
  | None => d
  end.

(** [delete_task]: [DELETE FROM tasks WHERE id = ?]. *)
Definition delete_task (id : Z) (d : db) : db :=
  mk_db (users d) (delete id (tasks d)) (task_seq d).

(** Everything that writes the [tasks] table. *)
Inductive op :=
| OpCycle (e : env) (utc : Z)
| OpAdd (task_title task_description : string) (assignee : option Z) (due : option Z)
| OpEdit (id : Z) (task_title task_description : string) (assignee : option Z) (due : option Z)
| OpComplete (id : Z) (session_user : Z) (note : string) (utc : Z)
| OpDelete (id : Z).

Definition apply_op (cfg : config) (o : op) (d : db) : db :=
  match o with
  | OpCycle e utc => after (cycle cfg e utc d)
  | OpAdd ti de a due => add_task ti de a due d
  | OpEdit id ti de a due => edit_task id ti de a due d
  | OpComplete id u note utc => complete_task id u note utc d
  | OpDelete id => delete_task id d
  end.

Definition apply_ops (cfg : config) (os : list op) (d : db) : db :=
  foldl (fun d o => apply_op cfg o d) d os.

(* ===================================================================== *)
(** ** The start-up guard *)
(* ===================================================================== *)

Module Guard.

(** Where a caller of [start_reminder_thread] stands.
    - [Idle]: not in the function (before a call or after one returned);
    - [AtLock]: at [with reminder_lock:], waiting for the lock;
    - [AtCheck]: holds the lock, about to read [reminder_thread_started];
    - [AtSpawn]: about to run [thread.start()];
    - [AtSet]: about to run [reminder_thread_started = True];
    - [AtUnlock]: at the end of the [with] block. *)
Inductive pc := Idle | AtLock | AtCheck | AtSpawn | AtSet | AtUnlock.

(** The module-level state: the flag, the holder of the lock, and two
    observers: how many [check_reminders] threads were started and how
    many calls returned. [callers] gives each caller its place; a caller
    not in the map is [Idle]. *)
Record gstate := mk_gstate {
  reminder_thread_started : bool;
  reminder_lock : option nat;
  loops : nat;
  returned : nat;
  callers : gmap nat pc
}.

Definition init : gstate := mk_gstate false None 0 0 ∅.

Definition pc_of (s : gstate) (i : nat) : pc := default Idle (callers s !! i).

Definition goto (s : gstate) (i : nat) (p : pc) : gmap nat pc := <[i := p]> (callers s).

(** One atomic step of caller [i]. A caller waiting for a held lock does
    not move. [Thread.start()] is taken to succeed. *)
Definition step (s : gstate) (i : nat) : gstate :=
  match pc_of s i with
  | Idle =>
      mk_gstate (reminder_thread_started s) (reminder_lock s) (loops s) (returned s)
        (goto s i AtLock)
  | AtLock =>
      match reminder_lock s with
      | None =>
          mk_gstate (reminder_thread_started s) (Some i) (loops s) (returned s)
            (goto s i AtCheck)
      | Some _ => s
      end
  | AtCheck =>
      mk_gstate (reminder_thread_started s) (reminder_lock s) (loops s) (returned s)
        (goto s i (if reminder_thread_started s then AtUnlock else AtSpawn))
  | AtSpawn =>
      mk_gstate (reminder_thread_started s) (reminder_lock s) (S (loops s)) (returned s)
        (goto s i AtSet)
  | AtSet =>
      mk_gstate true (reminder_lock s) (loops s) (returned s) (goto s i AtUnlock)
  | AtUnlock =>
      mk_gstate (reminder_thread_started s) None (loops s) (S (returned s))
        (goto s i Idle)
  end.

(** A schedule names the caller that moves at each step. *)
Definition run (schedule : list nat) (s : gstate) : gstate := foldl step s schedule.

(** The caller is inside the [with] block. *)
Definition inside (s : gstate) (i : nat) : bool :=
  match pc_of s i with
  | AtCheck | AtSpawn | AtSet | AtUnlock => true
  | Idle | AtLock => false
  end.

(** The holder of the lock has started the thread and not yet set the
    flag. *)
Definition started_not_flagged (s : gstate) : nat :=
  match reminder_lock s with
  | Some h => match pc_of s h with AtSet => 1 | _ => 0 end
  | None => 0
  end%nat.

Record invariant (s : gstate) : Prop := mk_invariant {
  inv_inside : forall i, inside s i = true -> reminder_lock s = Some i;
  inv_holder : forall h, reminder_lock s = Some h -> inside s h = true;
  inv_loops :
    loops s
    = ((if reminder_thread_started s then 1 else 0) + started_not_flagged s)%nat;
  inv_before : forall h,
    reminder_lock s = Some h -> pc_of s h = AtSpawn \/ pc_of s h = AtSet ->
    reminder_thread_started s = false;
  inv_after : forall h,
    reminder_lock s = Some h -> pc_of s h = AtUnlock -> reminder_thread_started s = true;
  inv_returned : (0 < returned s)%nat -> reminder_thread_started s = true
}.

End Guard.

(* ===================================================================== *)
(** ** Observers used in the statements *)
(* ===================================================================== *)

Definition threshold_eqb (a b : threshold) : bool :=
  match a, b with
  | T2h, T2h | T30m, T30m | T5m, T5m => true
  | _, _ => false
  end.

(** The event is a call of the channel for task [i]. *)
Definition is_send_to (i : Z) (ev : event) : bool :=
  match ev with
  | EvSend j _ _ _ _ => j =? i
  | _ => false
  end.

(** The event is a call of the channel for threshold [T] of task [i]. *)
Definition is_send (i : Z) (T : threshold) (ev : event) : bool :=
  match ev with
  | EvSend j T' _ _ _ => (j =? i) && threshold_eqb T' T
  | _ => false
  end.

(** ... and the call returned [ok]. *)
Definition is_send_with (ok : bool) (i : Z) (T : threshold) (ev : event) : bool :=
  match ev with
  | EvSend j T' _ _ ok' => (j =? i) && threshold_eqb T' T && Bool.eqb ok' ok
  | _ => false
  end.

(** The event is a notification attempt of any kind. *)
Definition is_attempt (ev : event) : bool :=
  match ev with
  | EvSend _ _ _ _ _ | EvPost _ _ => true
  | EvLog _ => false
  end.

Definition is_log (ev : event) : bool :=
  match ev with
  | EvLog _ => true
  | _ => false
  end.

Definition count (p : event -> bool) (tr : list event) : nat :=
  length (List.filter p tr).

Definition is_done (o : outcome) : bool :=
  match o with Done => true | Raised _ => false end.

(** Over the scans of a run: calls for [(i, T)], those that returned
    false, and those that returned true in a scan that did not commit. *)
Fixpoint attempts (i : Z) (T : threshold) (rs : list cycle_result) : nat :=
  match rs with
  | [] => 0
  | r :: rs' => count (is_send i T) (events r) + attempts i T rs'
  end%nat.

Fixpoint failures (i : Z) (T : threshold) (rs : list cycle_result) : nat :=
  match rs with
  | [] => 0
  | r :: rs' => count (is_send_with false i T) (events r) + failures i T rs'
  end%nat.

Fixpoint lost (i : Z) (T : threshold) (rs : list cycle_result) : nat :=
  match rs with
  | [] => 0
  | r :: rs' =>
      (if is_done (result r) then 0 else count (is_send_with true i T) (events r))
      + lost i T rs'
  end%nat.

(** What the scheduler would do with a row at [now]: the threshold it
    calls the channel for, if any. *)
Definition due (now : datetime) (r : row) : option threshold :=
  match deadline (row_task r) with
  | None => None
  | Some dl =>
      if truthy (row_chat r) then
        match time_left now dl with
        | Some td => candidate (minutes_of td) (row_task r)
        | None => None
        end
      else None
  end.

(** The call of the channel made for row [r] and threshold [T] when [k]
    POSTs were made, and the event the scheduler leaves for it. *)
Definition call_channel (cfg : config) (e : env) (k : nat) (r : row) (T : threshold)
    : bool * nat * list event :=
  send_telegram_message cfg (http_post e) k (row_chat r)
    (reminder_message T (title (row_task r))).

Definition send_event (r : row) (T : threshold) (ok : bool) : event :=
  EvSend (row_id r) T (row_chat r) (reminder_message T (title (row_task r))) ok.

(** Rows of a result set that carry id [i]. *)
Definition rows_with (i : Z) (rows : list row) : nat :=
  length (List.filter (fun r => row_id r =? i) rows).

(** [t'] is [t] up to the three flags. *)
Definition same_but_flags (t t' : task) : Prop :=
  title t' = title t /\ description t' = description t /\ assigned_to t' = assigned_to t
  /\ deadline t' = deadline t /\ task_status t' = task_status t
  /\ completion_note t' = completion_note t /\ completed_at t' = completed_at t.

(** How the row of task [i] may change while the events [evs] happen:
    it stays present or absent; when present only flags change, none goes
    back to false, and one that became true has a call that returned true
    among [evs]. *)
Definition evolves (i : Z) (evs : list event) (a b : option task) : Prop :=
  match a, b with
  | None, None => True
  | Some t, Some t' =>
      same_but_flags t t'
      /\ (forall T, flag T t = true -> flag T t' = true)
      /\ (forall T, flag T t' = true ->
            flag T t = true \/ exists ev, ev ∈ evs /\ is_send_with true i T ev = true)
  | _, _ => False
  end.

(** Task [i] can get no further call for [T]: it is gone, or its flag is
    set. *)
Definition closed (i : Z) (T : threshold) (d : db) : Prop :=
  match tasks d !! i with
  | Some t => flag T t = true
  | None => True
  end.

(** The scan at [utc] read the store and its loop went over every row of
    the query: no exception left the loop. *)
Definition scanned_all (cfg : config) (e : env) (utc : Z) (d : db) : bool :=
  connect_ok e && select_ok e
  && is_done (for_each_task cfg e (get_uzb_now utc) (select_pending d)
                (mk_cstate (tasks d) 0)).1.1.

(** The windows as the specification words them: closed intervals of
    minutes, looked at in the order 2h, 30m, 5m; the candidate is the
    first window that holds the remaining time and was not sent yet. *)
Definition spec_window (T : threshold) : Z * Z :=
  match T with
  | T2h => (115, 125)
  | T30m => (25, 35)
  | T5m => (3, 7)
  end.

Definition spec_order : list threshold := [T2h; T30m; T5m].

Definition in_window (T : threshold) (m : Q) : Prop :=
  (inject_Z (spec_window T).1 <= m /\ m <= inject_Z (spec_window T).2)%Q.

Definition in_window_b (T : threshold) (m : Q) : bool :=
  Qle_bool (inject_Z (spec_window T).1) m && Qle_bool m (inject_Z (spec_window T).2).

Definition spec_candidate (m : Q) (t : task) : option threshold :=
  List.find (fun T => in_window_b T m && negb (flag T t)) spec_order.

(** Every id of the table was given out by the counter. *)
Definition ids_below_seq (d : db) : Prop :=
  forall i t, tasks d !! i = Some t -> i <= task_seq d.

Definition all_sent (t : task) : bool :=
  reminder_2h_sent t && reminder_30m_sent t && reminder_5m_sent t.

Definition is_post (ev : event) : bool :=
  match ev with
  | EvPost _ _ => true
  | _ => false
  end.

(* ===================================================================== *)
(** ** Concrete stores and worlds *)
(* ===================================================================== *)

Module Sample.

Definition cfg : config := mk_config "123:abc" "77".

Definition cfg_no_token : config := mk_config EmptyString EmptyString.

Definition ali : user := mk_user "ali" xodim (Some "Ali") (Some "42").

(** A user without a chat id. *)
Definition vali : user := mk_user "vali" xodim None None.

(** A fresh pending task of user [uid] whose deadline, a naive value, is
    [minutes] minutes after instant 0 on the clock of UTC+5. *)
Definition task_in (task_title : string) (uid : Z) (minutes : Z) : task :=
  mk_task task_title None (Some uid)
    (Some (mk_datetime (minutes * US_PER_MINUTE + UZB_TIMEZONE) None))
    pending None None false false false.

(** One task, two hours ahead. *)
Definition store1 : db := mk_db {[1 := ali]} {[1 := task_in "A" 1 120]} 1.

(** Two tasks of a user with an address, both inside a window, and one
    task of a user without address. *)
Definition store3 : db :=
  mk_db {[1 := ali; 2 := vali]}
    {[1 := task_in "A" 1 120; 2 := task_in "B" 1 30; 3 := task_in "C" 2 120]} 3.

(** Every flag of every task set. *)
Definition store_sent : db :=
  mk_db {[1 := ali]}
    {[1 := mk_task "A" None (Some 1) (Some (mk_datetime (120 * US_PER_MINUTE + UZB_TIMEZONE) None))
             pending None None true true true]} 1.

(** Store and channel work. *)
Definition world_ok : env := mk_env true true (fun _ => Some 200) (fun _ _ => true) true.

(** The channel works, every [UPDATE] raises (database is locked). *)
Definition world_locked : env := mk_env true true (fun _ => Some 200) (fun _ _ => false) true.

(** The store works, every POST raises. *)
Definition world_offline : env := mk_env true true (fun _ => None) (fun _ _ => true) true.

Definition row_of (d : db) (i : Z) (t : task) : row := mk_row i t (join_chat (users d) t).

(** Two scans one minute apart: in the first the [UPDATE] raises, in the
    second all is well. *)
Definition locked_then_ok : list (env * Z) :=
  [(world_locked, 0); (world_ok, US_PER_MINUTE)].


End Sample.

(* ===================================================================== *)
(** ** Histories of the store *)
(* ===================================================================== *)

(** The operations of a history applied in turn: the store at the end and
    the events of the scans among them. *)
Fixpoint run_ops (cfg : config) (os : list op) (d : db) : db * list event :=
  match os with
  | [] => (d, [])
  | o :: os' =>
      let evs :=
        match o with
        | OpCycle e utc => events (cycle cfg e utc d)
        | _ => []
        end in
      let '(d', rest) := run_ops cfg os' (apply_op cfg o d) in
      (d', evs ++ rest)
  end.

(** Task [i] is out of the scheduler's query: it is gone or completed. *)
Definition muted (i : Z) (d : db) : Prop :=
  match tasks d !! i with
  | Some t => is_pending t = false
  | None => True
  end.

(** The store of a fresh installation, before any user or task. *)
Definition empty_db : db := mk_db ∅ ∅ 0.

(* ===================================================================== *)
(** ** Accounts: the [users] table with its passwords *)
(* ===================================================================== *)

Module Accounts.

(** A row of [users]: the columns the scheduler joins on, and the
    password column (the hex digest that was stored). *)
Record account := mk_account {
  acc_user : user;
  acc_password : string
}.

(** What [login] puts into the Flask session. *)
Record session := mk_session {
  session_user_id : Z;
  session_username : string;
  session_role : role;
  session_full_name : option string
}.

(** The table and its AUTOINCREMENT counter. *)
Record table := mk_table {
  rows : gmap Z account;
  user_seq : Z
}.

Definition name_of (a : account) : string := username (acc_user a).

Definition is_xodim (a : account) : bool :=
  match user_role (acc_user a) with
  | xodim => true
  | boss => false
  end.

(** The columns the scheduler joins on. *)
Definition users_of (t : table) : gmap Z user := acc_user <$> rows t.

(** [len(s)] of Python for a [str] held as its UTF-8 bytes: the number of
    bytes that do not continue a character (not of the form 10xxxxxx). *)
Definition is_continuation (c : Ascii.ascii) : bool :=
  match c with
  | Ascii.Ascii _ _ _ _ _ _ b6 b7 => b7 && negb b6
  end.

Fixpoint py_len (s : string) : nat :=
  match s with
  | EmptyString => 0
  | String c s' => (if is_continuation c then 0 else 1) + py_len s'
  end%nat.

(** Some row carries the username: the UNIQUE constraint would refuse the
    name, and [SELECT * FROM users WHERE username = ?] finds a row. *)
Definition taken (u : string) (m : gmap Z account) : bool :=
  existsb (fun kv : Z * account => String.eqb (name_of kv.2) u) (map_to_list m).

Definition max_key (m : gmap Z account) : Z :=
  map_fold (fun k _ acc => Z.max k acc) 0 m.

Definition next_user_id (t : table) : Z := Z.max (user_seq t) (max_key (rows t)) + 1.

(** [INSERT INTO users (username, password, role, full_name, telegram_chat_id)]:
    [None] is the [IntegrityError] of the UNIQUE constraint on
    [username]. *)
Definition insert_user (u : user) (pw : string) (t : table) : option table :=
  if taken (username u) (rows t) then None
  else
    let id := next_user_id t in
    Some (mk_table (<[id := mk_account u pw]> (rows t)) id).

Section WithHash.

(** [hashlib.sha256(p.encode()).hexdigest()]. *)
Variable hash : string -> string.

(** The row [init_db] adds: [INSERT OR IGNORE ... ('boss', sha256('magistr'), 'boss', 'Bosh Direktor')].
    A conflict on the username is ignored: no row is written, but SQLite
    has by then drawn the id of the new row, and, the statement not being
    rolled back, [sqlite_sequence] keeps it. (The plain [INSERT] of
    [insert_user] is aborted by the conflict, which undoes the draw.) *)
Definition init_db (t : table) : table :=
  match insert_user (mk_user "boss" boss (Some "Bosh Direktor") None) (hash "magistr") t with
  | Some t' => t'
  | None => mk_table (rows t) (next_user_id t)
  end.

Definition session_of (id : Z) (a : account) : session :=
  mk_session id (name_of a) (user_role (acc_user a)) (full_name (acc_user a)).

(** [login], POST, with the username stripped: the session that is
    opened, if any. [fetchone()] takes the first row that matches. *)
Definition login (u p : string) (t : table) : option session :=
  if nonempty u && nonempty p then
    head (omap (fun kv : Z * account =>
                  if String.eqb (name_of kv.2) u
                     && String.eqb (acc_password kv.2) (hash p)
                  then Some (session_of kv.1 kv.2)
                  else None)
               (map_to_list (rows t)))
  else None.

(** [xodimlar], POST, with the fields stripped (the password is taken as
    typed). *)
Definition xodimlar_post (u p fn chat : string) (t : table) : table :=
  if nonempty u && nonempty p then
    match insert_user (mk_user u xodim (or_none fn) (or_none chat)) (hash p) t with
    | Some t' => t'
    | None => t
    end
  else t.

(** [delete_xodim]: [DELETE FROM users WHERE id = ? AND role = 'xodim']. *)
Definition delete_xodim (id : Z) (t : table) : table :=
  match rows t !! id with
  | Some a => if is_xodim a then mk_table (delete id (rows t)) (user_seq t) else t
  | None => t
  end.

(** [edit_xodim], POST, with the four fields stripped. The row is looked
    up with [role = 'xodim']; a new username must not be in the table; an
    empty password field keeps the stored password. *)
Definition edit_xodim (id : Z) (u p fn chat : string) (t : table) : table :=
  match rows t !! id with
  | Some a =>
      if is_xodim a then
        if nonempty u then
          if negb (String.eqb u (name_of a)) && taken u (rows t) then t
          else
            mk_table
              (<[id := mk_account
                         (mk_user u (user_role (acc_user a)) (or_none fn) (or_none chat))
                         (if nonempty p then hash p else acc_password a)]> (rows t))
              (user_seq t)
        else t
      else t
  | None => t
  end.

(** [change_profile], POST, by the session [s], with the four fields
    stripped: the table and the session after the request. When the row of
    the session is gone, [user['password']] raises and nothing is
    written. *)
Definition change_profile (s : session) (new_username new_password confirm_password
    current_password : string) (t : table) : table * session :=
  match rows t !! session_user_id s with
  | None => (t, s)
  | Some a =>
      let rename :=
        nonempty new_username && negb (String.eqb new_username (session_username s)) in
      if negb (String.eqb (hash current_password) (acc_password a)) then (t, s)
      else if rename && taken new_username (rows t) then (t, s)
      else if nonempty new_password && negb (String.eqb new_password confirm_password)
      then (t, s)
      else if nonempty new_password && (py_len new_password <? 4)%nat then (t, s)
      else if rename || nonempty new_password then
        (mk_table
           (<[session_user_id s :=
                mk_account
                  (mk_user (if rename then new_username else name_of a)
                     (user_role (acc_user a)) (full_name (acc_user a))
                     (telegram_chat_id (acc_user a)))
                  (if nonempty new_password then hash new_password else acc_password a)]>
              (rows t))
           (user_seq t),
         if rename
         then mk_session (session_user_id s) new_username (session_role s)
                (session_full_name s)
         else s)
      else (t, s)
  end.

(** The requests that write [users]. *)
Inductive request :=
| ReqInit
| ReqAdd (u p fn chat : string)
| ReqDelete (id : Z)
| ReqEdit (id : Z) (u p fn chat : string)
| ReqProfile (s : session) (new_username new_password confirm_password current_password : string).

Definition serve (r : request) (t : table) : table :=
  match r with
  | ReqInit => init_db t
  | ReqAdd u p fn chat => xodimlar_post u p fn chat t
  | ReqDelete id => delete_xodim id t
  | ReqEdit id u p fn chat => edit_xodim id u p fn chat t
  | ReqProfile s nu np cp cur => (change_profile s nu np cp cur t).1
  end.

Definition serve_all (rs : list request) (t : table) : table :=
  foldl (fun t r => serve r t) t rs.

End WithHash.

(** No two rows carry the same username. *)
Definition unique_names (t : table) : Prop :=
  forall i j a b,
    rows t !! i = Some a -> rows t !! j = Some b -> name_of a = name_of b -> i = j.

Definition empty_table : table := mk_table ∅ 0.

(** A hash for the examples: the password itself. *)
Definition plain (p : string) : string := p.

End Accounts.

(* ===================================================================== *)
(** ** The handlers with their notifications *)
(* ===================================================================== *)

Module Notify.

Section WithFormat.

Variable cfg : config.

(** The POSTs of the request. *)
Variable post : nat -> option Z.

(** [deadline.strftime('%d.%m.%Y %H:%M')]. *)
Variable strftime : datetime -> string.

(** [notify_user_new_task(user_id, task_title, deadline)]: the events of
    the call. The message is sent when the user exists and has a chat
    id. *)
Definition notify_user_new_task (us : gmap Z user) (user_id : Z) (task_title : string)
    (due : option datetime) : list event :=
  match us !! user_id with
  | Some u =>
      if truthy (telegram_chat_id u) then
        let deadline_text :=
          match due with
          | Some dl => LF +:+ "Muddat: " +:+ strftime dl
          | None => EmptyString
          end in
        let message :=
          "<b>Yangi topshiriq!</b>" +:+ LF +:+ LF +:+ task_title +:+ deadline_text in
        (send_telegram_message cfg post 0 (telegram_chat_id u) message).2
      else []
  | None => []
  end.

(** [x or default] on a nullable text column. *)
Definition or_default (x : option string) (default : string) : string :=
  match x with
  | Some s => if nonempty s then s else default
  | None => default
  end.

(** [notify_boss_task_completed(task_id)]: the events of the call. *)
Definition notify_boss_task_completed (d : db) (task_id : Z) : list event :=
  if negb (nonempty (BOSS_TELEGRAM_CHAT_ID cfg)) then []
  else
    match tasks d !! task_id with
    | Some t =>
        let xodim_name :=
          match assigned_to t with
          | Some uid =>
              match users d !! uid with
              | Some u => full_name u
              | None => None
              end
          | None => None
          end in
        let message :=
          "<b>Topshiriq bajarildi!</b>" +:+ LF +:+ LF
          +:+ title t +:+ LF
          +:+ "Bajardi: " +:+ or_default xodim_name "Noma'lum" +:+ LF
          +:+ (if truthy (completion_note t)
               then "Izoh: " +:+ default EmptyString (completion_note t)
               else EmptyString) in
        (send_telegram_message cfg post 0 (Some (BOSS_TELEGRAM_CHAT_ID cfg)) message).2
    | None => []
    end.

(** [add_task], POST, as a whole: the insert is committed, then the
    assignee is notified. When the [INSERT] raises, the [except] branch is
    taken and [notify_user_new_task] is not called. *)
Definition add_task_request (task_title task_description : string) (assignee : option Z)
    (due : option Z) (d : db) : db * list event :=
  match assignee with
  | Some uid =>
      if nonempty task_title && fits_int64 uid then
        let d' := add_task task_title task_description assignee due d in
        (d', notify_user_new_task (users d') uid task_title
               (option_map (fun w => mk_datetime w None) due))
      else (d, [])
  | None => (d, [])
  end.

(** [complete_task] as a whole: the update is committed, then the boss is
    notified. *)
Definition complete_task_request (id : Z) (session_user : Z) (note : string) (utc : Z)
    (d : db) : db * list event :=
  match tasks d !! id with
  | Some t =>
      if bool_decide (assigned_to t = Some session_user) then
        let d' := complete_task id session_user note utc d in
        (d', notify_boss_task_completed d' id)
      else (d, [])
  | None => (d, [])
  end.

End WithFormat.

(** A format for the examples. *)
Definition no_format (dl : datetime) : string := "-".

End Notify.

(* ===================================================================== *)
(** ** Arithmetic of the windows *)
(* ===================================================================== *)

Section Windows.

Lemma Qle_bool_minutes_lower (a td : Z) :
  Qle_bool (inject_Z a) (minutes_of td) = (a * US_PER_MINUTE <=? td).
Proof.
  unfold Qle_bool, minutes_of, total_seconds, US_PER_MINUTE, US_PER_SECOND. cbn.
  apply eq_true_iff_eq. rewrite !Z.leb_le. lia.
Qed.

Lemma Qle_bool_minutes_upper (a td : Z) :
  Qle_bool (minutes_of td) (inject_Z a) = (td <=? a * US_PER_MINUTE).
Proof.
  unfold Qle_bool, minutes_of, total_seconds, US_PER_MINUTE, US_PER_SECOND. cbn.
  apply eq_true_iff_eq. rewrite !Z.leb_le. lia.
Qed.

Lemma in_window_b_iff (T : threshold) (m : Q) : in_window_b T m = true <-> in_window T m.
Proof.
  unfold in_window_b, in_window. rewrite andb_true_iff, !Qle_bool_iff. tauto.
Qed.

Lemma candidate_refines (m : Q) (t : task) : candidate m t = spec_candidate m t.
Proof.
  unfold candidate, spec_candidate, spec_order, in_window_b. cbn. reflexivity.
Qed.

Lemma windows_disjoint (m : Q) (T T' : threshold) :
  in_window T m -> in_window T' m -> T = T'.
Proof.
  unfold in_window.
  destruct T, T'; cbn; intros [H1 H2] [H3 H4]; try done; exfalso.
  all: try (pose proof (Qle_trans _ _ _ H1 H4) as H; unfold Qle in H; cbn in H; lia).
  all: pose proof (Qle_trans _ _ _ H3 H2) as H; unfold Qle in H; cbn in H; lia.
Qed.

Lemma candidate_Some (m : Q) (t : task) (T : threshold) :
  candidate m t = Some T <-> in_window T m /\ flag T t = false.
Proof.
  split.
  - unfold candidate. intros H.
    repeat match type of H with
           | (if ?c then _ else _) = _ => destruct c eqn:?
           end; simplify_eq.
    all: repeat match goal with
           | H : _ && _ = true |- _ => apply andb_true_iff in H as [? ?]
           end.
    all: split; [apply in_window_b_iff; unfold in_window_b; cbn; by apply andb_true_iff
                | cbn; by apply negb_true_iff].
  - intros [Hw Hf]. rewrite candidate_refines. unfold spec_candidate, spec_order.
    pose proof (proj2 (in_window_b_iff T m) Hw) as Hb.
    assert (forall T', T' <> T -> in_window_b T' m = false) as Hne.
    { intros T' Hne. destruct (in_window_b T' m) eqn:E; [|done].
      apply in_window_b_iff in E. by destruct Hne; eapply windows_disjoint. }
    destruct T; cbn [List.find];
      rewrite ?(Hne T2h), ?(Hne T30m), ?Hb, ?Hf by done; done.
Qed.

Lemma candidate_all_sent (m : Q) (t : task) : all_sent t = true -> candidate m t = None.
Proof.
  unfold all_sent, candidate. intros H.
  apply andb_true_iff in H as [H H3]. apply andb_true_iff in H as [H1 H2].
  rewrite H1, H2, H3. cbn. by rewrite !andb_false_r.
Qed.

End Windows.

(* ===================================================================== *)
(** ** The clock *)
(* ===================================================================== *)

Section ClockFacts.

Lemma localize_aware (dl : datetime) :
  tzinfo (localize dl) = Some (default UZB_TIMEZONE (tzinfo dl)).
Proof. by destruct dl as [w [off|]]. Qed.

Lemma localize_wall (dl : datetime) : wall (localize dl) = wall dl.
Proof. by destruct dl as [w [off|]]. Qed.

(** With the scheduler's own clock the subtraction never raises. *)
Lemma time_left_uzb (utc : Z) (dl : datetime) :
  time_left (get_uzb_now utc) dl
  = Some (wall dl - default UZB_TIMEZONE (tzinfo dl) - utc).
Proof.
  unfold time_left, dt_sub. rewrite localize_aware, localize_wall. cbn.
  f_equal. lia.
Qed.

Lemma is_overdue_uzb (utc : Z) (dl : datetime) :
  is_overdue utc (Some dl)
  = Some (wall dl - default UZB_TIMEZONE (tzinfo dl) <? utc).
Proof.
  unfold is_overdue, dt_lt. rewrite localize_aware, localize_wall. cbn.
  f_equal. apply eq_true_iff_eq. rewrite !Z.ltb_lt. lia.
Qed.

End ClockFacts.

(* ===================================================================== *)
(** ** The channel *)
(* ===================================================================== *)

Section Channel.

Variable cfg : config.
Variable post : nat -> option Z.

Lemma send_unconfigured (k : nat) (chat_id : option string) (message : string) :
  nonempty (TELEGRAM_BOT_TOKEN cfg) = false \/ truthy chat_id = false ->
  send_telegram_message cfg post k chat_id message = (false, k, []).
Proof.
  unfold send_telegram_message. intros [-> | ->]; cbn; [done|].
  by rewrite orb_true_r.
Qed.


Lemma send_true_posts (k : nat) (chat_id : option string) (message : string) :
  (send_telegram_message cfg post k chat_id message).1.1 = true ->
  nonempty (TELEGRAM_BOT_TOKEN cfg) = true /\ truthy chat_id = true /\ post k = Some 200.
Proof.
  unfold send_telegram_message.
  destruct (nonempty _); cbn; [|done]. destruct (truthy _); cbn; [|done].
  destruct (post k) as [c|]; cbn; [|done]. intros ->%Z.eqb_eq. done.
Qed.

(** The events of a call are POSTs and printed lines, never [EvSend]:
    that one is added by the caller. *)
Lemma send_events_not_send (k : nat) (chat_id : option string) (message : string) ev :
  ev ∈ (send_telegram_message cfg post k chat_id message).2 ->
  forall i, is_send_to i ev = false.
Proof.
  unfold send_telegram_message.
  destruct (negb _ || negb _ || negb _); cbn; [by intros ?%elem_of_nil|].
  destruct (post k); cbn; intros H i.
  - apply list_elem_of_singleton in H as ->. done.
  - apply elem_of_cons in H as [-> | H]; [done|].
    apply list_elem_of_singleton in H as ->. done.
Qed.

End Channel.

(* ===================================================================== *)
(** ** The loop over the rows *)
(* ===================================================================== *)

Section Loop.

Variable cfg : config.
Variable e : env.
Variable utc : Z.

Let now := get_uzb_now utc.

(** The body of the loop, by what is due for the row. *)
Lemma process_task_due (r : row) (st : cstate) :
  process_task cfg e now r st =
  match due now r with
  | None => (Done, st, [])
  | Some T =>
      let '(ok, k, evs) := call_channel cfg e (posts st) r T in
      if ok then
        if update_ok e (row_id r) T
        then (Done, mk_cstate (alter (mark_sent T) (row_id r) (conn st)) k,
               evs ++ [send_event r T ok])
        else (Raised "OperationalError", mk_cstate (conn st) k, evs ++ [send_event r T ok])
      else (Done, mk_cstate (conn st) k, evs ++ [send_event r T ok])
  end.
Proof.
  unfold process_task, due, call_channel, send_event, now.
  destruct (deadline (row_task r)) as [dl|]; [|done].
  destruct (truthy (row_chat r)); cbn [negb]; [|done].
  rewrite time_left_uzb.
  destruct (candidate _ _) as [T|]; done.
Qed.

(** Induction over a run of the loop: one case per way through the
    body. *)
Lemma for_each_task_cases
    (P : list row -> cstate -> outcome -> cstate -> list event -> Prop) :
  (forall st, P [] st Done st []) ->
  (forall r rows st o st' evs,
      due now r = None ->
      P rows st o st' evs -> P (r :: rows) st o st' evs) ->
  (forall r rows st T k ev0 o st' evs,
      due now r = Some T ->
      call_channel cfg e (posts st) r T = (false, k, ev0) ->
      P rows (mk_cstate (conn st) k) o st' evs ->
      P (r :: rows) st o st' ((ev0 ++ [send_event r T false]) ++ evs)) ->
  (forall r rows st T k ev0 o st' evs,
      due now r = Some T ->
      call_channel cfg e (posts st) r T = (true, k, ev0) ->
      update_ok e (row_id r) T = true ->
      P rows (mk_cstate (alter (mark_sent T) (row_id r) (conn st)) k) o st' evs ->
      P (r :: rows) st o st' ((ev0 ++ [send_event r T true]) ++ evs)) ->
  (forall r rows st T k ev0,
      due now r = Some T ->
      call_channel cfg e (posts st) r T = (true, k, ev0) ->
      update_ok e (row_id r) T = false ->
      P (r :: rows) st (Raised "OperationalError") (mk_cstate (conn st) k)
        (ev0 ++ [send_event r T true])) ->
  forall rows st o st' evs,
    for_each_task cfg e now rows st = (o, st', evs) -> P rows st o st' evs.
Proof.
  intros Hnil Hskip Hfail Hok Hraise.
  induction rows as [|r rows IH]; intros st o st' evs; cbn [for_each_task].
  - intros [= <- <- <-]. apply Hnil.
  - rewrite process_task_due.
    destruct (due now r) as [T|] eqn:Hdue.
    + destruct (call_channel cfg e (posts st) r T) as [[ok k] ev0] eqn:Hcall.
      destruct ok.
      * destruct (update_ok e (row_id r) T) eqn:Hupd.
        -- destruct (for_each_task cfg e now rows _) as [[o1 st1] evs1] eqn:Hrest.
           intros [= <- <- <-]. eapply Hok; eauto.
        -- intros [= <- <- <-]. eapply Hraise; eauto.
      * destruct (for_each_task cfg e now rows _) as [[o1 st1] evs1] eqn:Hrest.
        intros [= <- <- <-]. eapply Hfail; eauto.
    + destruct (for_each_task cfg e now rows st) as [[o1 st1] evs1] eqn:Hrest.
      intros [= <- <- <-]. eapply Hskip; eauto.
Qed.

End Loop.

(* ===================================================================== *)
(** ** Counting events *)
(* ===================================================================== *)

Section Counting.

Implicit Types (p q : event -> bool) (l : list event).

Lemma count_nil p : count p [] = 0%nat.
Proof. done. Qed.

Lemma count_cons p ev l :
  count p (ev :: l) = ((if p ev then 1 else 0) + count p l)%nat.
Proof. unfold count. cbn. by destruct (p ev). Qed.

Lemma count_app p l1 l2 : count p (l1 ++ l2) = (count p l1 + count p l2)%nat.
Proof.
  induction l1 as [|ev l1 IH]; [done|].
  rewrite <- app_comm_cons, !count_cons, IH. lia.
Qed.

Lemma count_elem p l ev : ev ∈ l -> p ev = true -> (1 <= count p l)%nat.
Proof.
  induction l as [|x l IH]; [by intros ?%elem_of_nil|].
  rewrite elem_of_cons, count_cons. intros [<- | Hin] Hp.
  - rewrite Hp. lia.
  - specialize (IH Hin Hp). lia.
Qed.

Lemma count_zero p l ev : count p l = 0%nat -> ev ∈ l -> p ev = false.
Proof.
  intros Hz Hin. destruct (p ev) eqn:Hp; [|done].
  pose proof (count_elem p l ev Hin Hp). lia.
Qed.

Lemma count_zero_all p l : (forall ev, ev ∈ l -> p ev = false) -> count p l = 0%nat.
Proof.
  induction l as [|x l IH]; [done|]. intros H.
  rewrite count_cons, (H x), IH; [done| |]; [|apply elem_of_cons; by left].
  intros ev Hin. apply H, elem_of_cons. by right.
Qed.

Lemma count_le p q l :
  (forall ev, p ev = true -> q ev = true) -> (count p l <= count q l)%nat.
Proof.
  intros Hpq. induction l as [|x l IH]; [done|].
  rewrite !count_cons. destruct (p x) eqn:Hp.
  - rewrite (Hpq x Hp). lia.
  - destruct (q x); lia.
Qed.

Lemma is_send_with_is_send ok i T ev : is_send_with ok i T ev = true -> is_send i T ev = true.
Proof. destruct ev; cbn; [|done..]. by intros [? _]%andb_true_iff. Qed.

Lemma is_send_is_send_to i T ev : is_send i T ev = true -> is_send_to i ev = true.
Proof. destruct ev; cbn; [|done..]. by intros [? _]%andb_true_iff. Qed.

Lemma threshold_eqb_eq (a b : threshold) : threshold_eqb a b = true <-> a = b.
Proof. by destruct a, b. Qed.

Lemma threshold_eqb_refl (a : threshold) : threshold_eqb a a = true.
Proof. by destruct a. Qed.

Lemma count_send_split i T l :
  count (is_send i T) l
  = (count (is_send_with false i T) l + count (is_send_with true i T) l)%nat.
Proof.
  induction l as [|x l IH]; [done|].
  rewrite !count_cons, IH.
  destruct x as [j T' c m ok| |]; cbn; [|lia..].
  destruct (j =? i), (threshold_eqb T' T), ok; cbn; lia.
Qed.

Lemma is_send_event r T ok i T' :
  is_send i T' (send_event r T ok) = (row_id r =? i) && threshold_eqb T T'.
Proof. done. Qed.

Lemma is_send_to_event r T ok i : is_send_to i (send_event r T ok) = (row_id r =? i).
Proof. done. Qed.

Lemma is_send_with_event r T ok b i T' :
  is_send_with b i T' (send_event r T ok)
  = (row_id r =? i) && threshold_eqb T T' && Bool.eqb ok b.
Proof. done. Qed.

(** The events of one call of the channel hold no [EvSend]. *)
Lemma call_events_not_send cfg e k r T ok k' ev0 :
  call_channel cfg e k r T = (ok, k', ev0) ->
  forall ev i, ev ∈ ev0 -> is_send_to i ev = false.
Proof.
  unfold call_channel. intros Hcall ev i Hin.
  eapply send_events_not_send. by rewrite Hcall.
Qed.

Lemma call_events_count cfg e k r T ok k' ev0 p :
  call_channel cfg e k r T = (ok, k', ev0) ->
  (forall ev, p ev = true -> exists i, is_send_to i ev = true) ->
  count p ev0 = 0%nat.
Proof.
  intros Hcall Hp. apply count_zero_all. intros ev Hin.
  destruct (p ev) eqn:E; [|done].
  destruct (Hp ev E) as [i Hi].
  by rewrite (call_events_not_send _ _ _ _ _ _ _ _ Hcall ev i Hin) in Hi.
Qed.

End Counting.

(* ===================================================================== *)
(** ** What the loop does to the rows and which calls it makes *)
(* ===================================================================== *)

Section Evolves.

Lemma same_but_flags_refl t : same_but_flags t t.
Proof. by repeat split. Qed.

Lemma same_but_flags_trans t1 t2 t3 :
  same_but_flags t1 t2 -> same_but_flags t2 t3 -> same_but_flags t1 t3.
Proof. unfold same_but_flags. intros. destruct_and!. repeat split; congruence. Qed.

Lemma same_but_flags_mark T t : same_but_flags t (mark_sent T t).
Proof. by destruct T; repeat split. Qed.

Lemma flag_mark_sent T T' t :
  flag T' (mark_sent T t) = if threshold_eqb T T' then true else flag T' t.
Proof. by destruct T, T'. Qed.

(** A row is its columns. *)
Lemma same_flags_eq t t' :
  same_but_flags t t' -> (forall T, flag T t' = flag T t) -> t' = t.
Proof.
  intros (?&?&?&?&?&?&?) Hf.
  pose proof (Hf T2h). pose proof (Hf T30m). pose proof (Hf T5m).
  destruct t, t'; cbn in *; congruence.
Qed.

Lemma evolves_refl i evs a : evolves i evs a a.
Proof.
  destruct a as [t|]; [|done]. cbn.
  split; [apply same_but_flags_refl|]. split; [done|]. by left.
Qed.

Lemma evolves_weaken i evs evs' a b :
  (forall ev, ev ∈ evs -> ev ∈ evs') -> evolves i evs a b -> evolves i evs' a b.
Proof.
  intros Hsub. destruct a as [t|], b as [t'|]; cbn; try done.
  intros (Hs & Hm & Hb). split; [done|]. split; [done|].
  intros T HT. destruct (Hb T HT) as [?|(ev & Hin & Hev)]; [by left|].
  right. exists ev. auto.
Qed.

Lemma evolves_trans i evs1 evs2 a b c :
  evolves i evs1 a b -> evolves i evs2 b c -> evolves i (evs1 ++ evs2) a c.
Proof.
  destruct a as [t1|], b as [t2|], c as [t3|]; cbn; try done.
  intros (Hs1 & Hm1 & Hb1) (Hs2 & Hm2 & Hb2).
  split; [by eapply same_but_flags_trans|]. split; [by auto|].
  intros T HT. destruct (Hb2 T HT) as [H2|(ev & Hin & Hev)].
  - destruct (Hb1 T H2) as [?|(ev & Hin & Hev)]; [by left|].
    right. exists ev. split; [|done]. apply elem_of_app. by left.
  - right. exists ev. split; [|done]. apply elem_of_app. by right.
Qed.

(** The [UPDATE] after a call that returned true. *)
Lemma evolves_mark i ev0 r T (m : gmap Z task) :
  evolves i (ev0 ++ [send_event r T true]) (m !! i)
    (alter (mark_sent T) (row_id r) m !! i).
Proof.
  destruct (decide (row_id r = i)) as [<-|Hne].
  - rewrite lookup_alter_eq. destruct (m !! row_id r) as [t|]; [|done]. cbn.
    split; [apply same_but_flags_mark|]. split.
    + intros T'. rewrite flag_mark_sent. by destruct (threshold_eqb T T').
    + intros T'. rewrite flag_mark_sent.
      destruct (threshold_eqb T T') eqn:E; [|by left]. intros _. right.
      exists (send_event r T true). split.
      * apply elem_of_app. right. by apply list_elem_of_singleton.
      * rewrite is_send_with_event, Z.eqb_refl, E. done.
  - rewrite lookup_alter_ne by done. apply evolves_refl.
Qed.

End Evolves.

Section LoopFacts.

Variable cfg : config.
Variable e : env.
Variable utc : Z.

Local Abbreviation now := (get_uzb_now utc).
Local Abbreviation loop := (for_each_task cfg e now).

Local Ltac by_cases P := apply (for_each_task_cases cfg e utc P).

Local Ltac split_in H :=
  rewrite ?elem_of_app, ?list_elem_of_singleton in H;
  repeat match type of H with
    | _ \/ _ => destruct H as [H | H]
    end.

Lemma rows_with_cons i r rows :
  rows_with i (r :: rows) = ((if (row_id r =? i)%Z then 1 else 0) + rows_with i rows)%nat.
Proof. unfold rows_with. cbn. by destruct (row_id r =? i). Qed.

Lemma rows_with_absent i rows : i ∉ row_id <$> rows -> rows_with i rows = 0%nat.
Proof.
  induction rows as [|r rows IH]; [done|].
  rewrite fmap_cons, not_elem_of_cons, rows_with_cons. intros [Hne Hnin].
  rewrite (IH Hnin). destruct (Z.eqb_spec (row_id r) i); [congruence|done].
Qed.

Lemma rows_with_NoDup i rows : NoDup (row_id <$> rows) -> (rows_with i rows <= 1)%nat.
Proof.
  induction rows as [|r rows IH]; [cbn; lia|].
  rewrite fmap_cons, NoDup_cons, rows_with_cons. intros [Hnin Hnd].
  destruct (Z.eqb_spec (row_id r) i) as [<-|Hne].
  - rewrite (rows_with_absent _ _ Hnin). lia.
  - specialize (IH Hnd). lia.
Qed.

(** Every call comes from a row for which a threshold is due. *)
Lemma loop_send_origin rows st o st' evs :
  loop rows st = (o, st', evs) ->
  forall ev i, ev ∈ evs -> is_send_to i ev = true ->
    exists r T ok, r ∈ rows /\ row_id r = i /\ due now r = Some T /\ ev = send_event r T ok.
Proof.
  revert rows st o st' evs.
  by_cases (fun (rows : list row) (st : cstate) (o : outcome) (st' : cstate)
              (evs : list event) =>
    forall ev i, ev ∈ evs -> is_send_to i ev = true ->
      exists r T ok, r ∈ rows /\ row_id r = i /\ due now r = Some T
                     /\ ev = send_event r T ok).
  - intros st ev i Hin. by apply elem_of_nil in Hin.
  - intros r rows st o st' evs Hdue IH ev i Hin Hs.
    destruct (IH ev i Hin Hs) as (r' & T & ok & ? & ? & ? & ?).
    exists r', T, ok. split; [apply elem_of_cons; by right|done].
  - intros r rows st T k ev0 o st' evs Hdue Hcall IH ev i Hin Hs. split_in Hin.
    + by rewrite (call_events_not_send _ _ _ _ _ _ _ _ Hcall ev i Hin) in Hs.
    + subst ev. rewrite is_send_to_event in Hs. apply Z.eqb_eq in Hs.
      exists r, T, false. split; [apply elem_of_cons; by left|done].
    + destruct (IH ev i Hin Hs) as (r' & T' & ok & ? & ? & ? & ?).
      exists r', T', ok. split; [apply elem_of_cons; by right|done].
  - intros r rows st T k ev0 o st' evs Hdue Hcall Hupd IH ev i Hin Hs. split_in Hin.
    + by rewrite (call_events_not_send _ _ _ _ _ _ _ _ Hcall ev i Hin) in Hs.
    + subst ev. rewrite is_send_to_event in Hs. apply Z.eqb_eq in Hs.
      exists r, T, true. split; [apply elem_of_cons; by left|done].
    + destruct (IH ev i Hin Hs) as (r' & T' & ok & ? & ? & ? & ?).
      exists r', T', ok. split; [apply elem_of_cons; by right|done].
  - intros r rows st T k ev0 Hdue Hcall Hupd ev i Hin Hs. split_in Hin.
    + by rewrite (call_events_not_send _ _ _ _ _ _ _ _ Hcall ev i Hin) in Hs.
    + subst ev. rewrite is_send_to_event in Hs. apply Z.eqb_eq in Hs.
      exists r, T, true. split; [apply elem_of_cons; by left|done].
Qed.

(** No more calls for a task than rows of that task. *)
Lemma loop_send_count rows st o st' evs :
  loop rows st = (o, st', evs) ->
  forall i, (count (is_send_to i) evs <= rows_with i rows)%nat.
Proof.
  revert rows st o st' evs.
  by_cases (fun (rows : list row) (st : cstate) (o : outcome) (st' : cstate)
              (evs : list event) =>
    forall i, (count (is_send_to i) evs <= rows_with i rows)%nat).
  - intros st i. cbn. lia.
  - intros r rows st o st' evs _ IH i. rewrite rows_with_cons. specialize (IH i). lia.
  - intros r rows st T k ev0 o st' evs _ Hcall IH i.
    rewrite !count_app, rows_with_cons, count_cons, count_nil, is_send_to_event.
    rewrite (call_events_count _ _ _ _ _ _ _ _ _ Hcall) by eauto.
    specialize (IH i). lia.
  - intros r rows st T k ev0 o st' evs _ Hcall _ IH i.
    rewrite !count_app, rows_with_cons, count_cons, count_nil, is_send_to_event.
    rewrite (call_events_count _ _ _ _ _ _ _ _ _ Hcall) by eauto.
    specialize (IH i). lia.
  - intros r rows st T k ev0 _ Hcall _ i.
    rewrite !count_app, rows_with_cons, count_cons, count_nil, is_send_to_event.
    rewrite (call_events_count _ _ _ _ _ _ _ _ _ Hcall) by eauto.
    lia.
Qed.

(** The rows of the connection evolve, and when the loop runs to its end
    every call that returned true has its flag set. *)
Lemma loop_conn rows st o st' evs :
  loop rows st = (o, st', evs) ->
  (forall i, evolves i evs (conn st !! i) (conn st' !! i))
  /\ (o = Done -> forall i T ev t',
        ev ∈ evs -> is_send_with true i T ev = true ->
        conn st' !! i = Some t' -> flag T t' = true).
Proof.
  revert rows st o st' evs.
  by_cases (fun (rows : list row) (st : cstate) (o : outcome) (st' : cstate)
              (evs : list event) =>
    (forall i, evolves i evs (conn st !! i) (conn st' !! i))
    /\ (o = Done -> forall i T ev t',
          ev ∈ evs -> is_send_with true i T ev = true ->
          conn st' !! i = Some t' -> flag T t' = true)).
  - intros st. split; [intros i; apply evolves_refl|].
    intros _ i T ev t' Hin. by apply elem_of_nil in Hin.
  - done.
  - intros r rows st T k ev0 o st' evs _ Hcall [IH1 IH2]. cbn [conn] in IH1. split.
    + intros i. eapply evolves_weaken; [|apply IH1].
      intros ev Hin. apply elem_of_app. by right.
    + intros Ho i T' ev t' Hin Hs Hl. split_in Hin.
      * apply is_send_with_is_send, is_send_is_send_to in Hs.
        by rewrite (call_events_not_send _ _ _ _ _ _ _ _ Hcall ev i Hin) in Hs.
      * subst ev. rewrite is_send_with_event in Hs. cbn in Hs.
        by rewrite andb_false_r in Hs.
      * by eapply IH2.
  - intros r rows st T k ev0 o st' evs _ Hcall _ [IH1 IH2]. cbn [conn] in IH1. split.
    + intros i. eapply evolves_trans; [apply evolves_mark|apply IH1].
    + intros Ho i T' ev t' Hin Hs Hl. split_in Hin.
      * apply is_send_with_is_send, is_send_is_send_to in Hs.
        by rewrite (call_events_not_send _ _ _ _ _ _ _ _ Hcall ev i Hin) in Hs.
      * subst ev. rewrite is_send_with_event in Hs.
        apply andb_true_iff in Hs as [Hs _]. apply andb_true_iff in Hs as [Hi HT].
        apply Z.eqb_eq in Hi. apply threshold_eqb_eq in HT. subst i T'.
        specialize (IH1 (row_id r)). rewrite Hl, lookup_alter_eq in IH1.
        destruct (conn st !! row_id r) as [t0|]; [|done]. cbn in IH1.
        destruct IH1 as (_ & Hm & _). apply Hm.
        by rewrite flag_mark_sent, threshold_eqb_refl.
      * by eapply IH2.
  - intros r rows st T k ev0 _ Hcall _. cbn [conn]. split; [|done].
    intros i. apply evolves_refl.
Qed.

(** A task no call is made for keeps its row. *)
Lemma loop_untouched rows st o st' evs i :
  loop rows st = (o, st', evs) ->
  (forall ev, ev ∈ evs -> is_send_to i ev = false) ->
  conn st' !! i = conn st !! i.
Proof.
  intros Hloop Hno. destruct (loop_conn _ _ _ _ _ Hloop) as [Hev _].
  specialize (Hev i).
  destruct (conn st !! i) as [t|], (conn st' !! i) as [t'|]; cbn in Hev; try done.
  destruct Hev as (Hs & Hm & Hb). f_equal. apply same_flags_eq; [done|].
  intros T. destruct (flag T t) eqn:Ht; [by apply Hm|].
  destruct (flag T t') eqn:Ht'; [|done].
  destruct (Hb T Ht') as [?|(ev & Hin & Hev)]; [congruence|].
  apply is_send_with_is_send, is_send_is_send_to in Hev.
  by rewrite (Hno ev Hin) in Hev.
Qed.

(** A loop that runs to its end has called the channel for every row
    with a threshold due. *)
Lemma loop_complete rows st o st' evs :
  loop rows st = (o, st', evs) ->
  o = Done ->
  forall r T, r ∈ rows -> due now r = Some T -> exists ok, send_event r T ok ∈ evs.
Proof.
  revert rows st o st' evs.
  by_cases (fun (rows : list row) (st : cstate) (o : outcome) (st' : cstate)
              (evs : list event) =>
    o = Done ->
    forall r T, r ∈ rows -> due now r = Some T -> exists ok, send_event r T ok ∈ evs).
  - intros st _ r T Hin. by apply elem_of_nil in Hin.
  - intros r rows st o st' evs Hdue IH Ho r' T' Hin Hd.
    apply elem_of_cons in Hin as [-> | Hin]; [congruence|]. by eapply IH.
  - intros r rows st T k ev0 o st' evs Hdue Hcall IH Ho r' T' Hin Hd.
    apply elem_of_cons in Hin as [-> | Hin].
    + assert (T' = T) as -> by congruence. exists false.
      rewrite !elem_of_app, list_elem_of_singleton. auto.
    + destruct (IH Ho r' T' Hin Hd) as [ok ?]. exists ok.
      rewrite !elem_of_app. auto.
  - intros r rows st T k ev0 o st' evs Hdue Hcall _ IH Ho r' T' Hin Hd.
    apply elem_of_cons in Hin as [-> | Hin].
    + assert (T' = T) as -> by congruence. exists true.
      rewrite !elem_of_app, list_elem_of_singleton. auto.
    + destruct (IH Ho r' T' Hin Hd) as [ok ?]. exists ok.
      rewrite !elem_of_app. auto.
  - done.
Qed.

(** Only a failing [UPDATE] makes the loop raise: whatever the POSTs
    do, the loop runs to its end when the store takes the writes. *)
Lemma loop_done rows st o st' evs :
  (forall j T, update_ok e j T = true) ->
  loop rows st = (o, st', evs) -> o = Done.
Proof.
  intros Hupd. revert rows st o st' evs.
  by_cases (fun (rows : list row) (st : cstate) (o : outcome) (st' : cstate)
                (evs : list event) => o = Done); try done.
  intros r rows st T k ev0 _ _ Hf. by rewrite Hupd in Hf.
Qed.

(** Without a token every call returns false, nothing is written and
    nothing is posted. *)
Lemma loop_no_token rows st o st' evs :
  nonempty (TELEGRAM_BOT_TOKEN cfg) = false ->
  loop rows st = (o, st', evs) ->
  o = Done /\ st' = st
  /\ forall ev, ev ∈ evs -> exists r T, r ∈ rows /\ ev = send_event r T false.
Proof.
  intros Htok. revert rows st o st' evs.
  by_cases (fun (rows : list row) (st : cstate) (o : outcome) (st' : cstate)
              (evs : list event) =>
    o = Done /\ st' = st
    /\ forall ev, ev ∈ evs -> exists r T, r ∈ rows /\ ev = send_event r T false).
  - intros st. repeat split. intros ev Hin. by apply elem_of_nil in Hin.
  - intros r rows st o st' evs _ (-> & -> & IH). repeat split.
    intros ev Hin. destruct (IH ev Hin) as (r' & T & ? & ?).
    exists r', T. split; [apply elem_of_cons; by right|done].
  - intros r rows st T k ev0 o st' evs _ Hcall (-> & -> & IH).
    unfold call_channel in Hcall. rewrite send_unconfigured in Hcall by auto.
    injection Hcall as <- <-. destruct st as [c k]. repeat split.
    intros ev Hin. cbn in Hin. apply elem_of_cons in Hin as [-> | Hin].
    + exists r, T. split; [apply elem_of_cons; by left|done].
    + destruct (IH ev Hin) as (r' & T' & ? & ?).
      exists r', T'. split; [apply elem_of_cons; by right|done].
  - intros r rows st T k ev0 o st' evs _ Hcall.
    unfold call_channel in Hcall. by rewrite send_unconfigured in Hcall by auto.
  - intros r rows st T k ev0 _ Hcall.
    unfold call_channel in Hcall. by rewrite send_unconfigured in Hcall by auto.
Qed.

(** Nothing due, nothing done. *)
Lemma loop_nothing_due rows st :
  (forall r, r ∈ rows -> due now r = None) -> loop rows st = (Done, st, []).
Proof.
  induction rows as [|r rows IH]; [done|]. intros H. cbn [for_each_task].
  rewrite process_task_due, (H r) by (apply elem_of_cons; by left).
  rewrite IH; [done|]. intros r' Hin. apply H, elem_of_cons. by right.
Qed.

(** An exception in the body of one row ends the loop: the rows after
    it are not looked at. *)
Lemma loop_raise r rest st what st1 evs :
  process_task cfg e now r st = (Raised what, st1, evs) ->
  loop (r :: rest) st = (Raised what, st1, evs).
Proof. intros H. cbn [for_each_task]. by rewrite H. Qed.

End LoopFacts.

(* ===================================================================== *)
(** ** The rows of the query *)
(* ===================================================================== *)

Section Query.

Variable d : db.

Lemma elem_of_select_pending (r : row) :
  r ∈ select_pending d <->
  tasks d !! row_id r = Some (row_task r)
  /\ is_pending (row_task r) = true /\ has_deadline (row_task r) = true
  /\ row_chat r = join_chat (users d) (row_task r).
Proof.
  unfold select_pending. rewrite list_elem_of_omap. split.
  - intros ([i t] & Hin & Hf). apply elem_of_map_to_list in Hin. cbn in Hf.
    destruct (is_pending t && has_deadline t) eqn:E; [|done].
    apply andb_true_iff in E as [? ?]. by simplify_eq.
  - intros (Hl & Hp & Hd & Hc). exists (row_id r, row_task r). split.
    + by apply elem_of_map_to_list.
    + cbn. rewrite Hp, Hd. cbn. destruct r. cbn in *. by rewrite Hc.
Qed.

Lemma NoDup_select_pending : NoDup (row_id <$> select_pending d).
Proof.
  unfold select_pending. pose proof (NoDup_fst_map_to_list (tasks d)) as Hnd.
  induction (map_to_list (tasks d)) as [|[i t] l IH]; [constructor|].
  rewrite fmap_cons in Hnd. apply NoDup_cons in Hnd as [Hnin Hnd]. cbn.
  destruct (is_pending t && has_deadline t); [|by apply IH].
  cbn. apply NoDup_cons. split; [|by apply IH].
  intros Hin. apply Hnin. apply list_elem_of_fmap in Hin as (r & Hr & Hin).
  apply list_elem_of_omap in Hin as ([j t'] & Hin & Hf). cbn in Hf.
  destruct (is_pending t' && has_deadline t'); [|done]. simplify_eq. cbn.
  apply list_elem_of_fmap. by exists (j, t').
Qed.

(** The one row the query returns for a task. *)
Lemma select_pending_row (r : row) :
  r ∈ select_pending d ->
  r = mk_row (row_id r) (row_task r) (join_chat (users d) (row_task r)).
Proof. intros (_ & _ & _ & Hc)%elem_of_select_pending. destruct r. cbn in *. by rewrite Hc. Qed.

End Query.

(* ===================================================================== *)
(** ** One scan *)
(* ===================================================================== *)

Section Cycle.

Variable cfg : config.
Variable e : env.
Variable utc : Z.
Variable d : db.

Local Abbreviation now := (get_uzb_now utc).
Local Abbreviation loop := (for_each_task cfg e now).

(** The ways through the body of the [try]. *)
Lemma scan_cases :
  (scan cfg e utc d = mk_cycle_result d [] (Raised "OperationalError")
   /\ connect_ok e && select_ok e = false)
  \/ exists o st' evs,
      connect_ok e = true /\ select_ok e = true
      /\ loop (select_pending d) (mk_cstate (tasks d) 0) = (o, st', evs)
      /\ ((o = Done /\ commit_ok e = true
           /\ scan cfg e utc d
              = mk_cycle_result (mk_db (users d) (conn st') (task_seq d)) evs Done)
          \/ (exists what, scan cfg e utc d = mk_cycle_result d evs (Raised what)
                           /\ (o = Done -> commit_ok e = false))).
Proof.
  unfold scan. destruct (connect_ok e); cbn [negb andb]; [|by left].
  destruct (select_ok e); cbn [negb]; [|by left]. right.
  destruct (loop _ _) as [[o st'] evs] eqn:Hloop. exists o, st', evs.
  do 3 (split; [done|]). destruct o as [|what].
  - destruct (commit_ok e); [by left|]. right. by eexists.
  - right. by eexists.
Qed.

Lemma cycle_after : after (cycle cfg e utc d) = after (scan cfg e utc d).
Proof. unfold cycle. by destruct (result (scan cfg e utc d)). Qed.

Lemma cycle_result_eq : result (cycle cfg e utc d) = result (scan cfg e utc d).
Proof. unfold cycle. by destruct (result (scan cfg e utc d)) eqn:E. Qed.

Lemma cycle_events :
  events (cycle cfg e utc d)
  = events (scan cfg e utc d)
    ++ match result (scan cfg e utc d) with
       | Done => []
       | Raised what => [EvLog ("Reminder xato: " +:+ what)]
       end.
Proof. unfold cycle. destruct (result (scan cfg e utc d)); [|done]. by rewrite app_nil_r. Qed.

(** The line printed by the handler is no call of the channel. *)
Lemma cycle_count (p : event -> bool) :
  (forall what, p (EvLog what) = false) ->
  count p (events (cycle cfg e utc d)) = count p (events (scan cfg e utc d)).
Proof.
  intros Hp. rewrite cycle_events, count_app.
  destruct (result _); [cbn; lia|]. rewrite count_cons, count_nil, Hp. lia.
Qed.

Lemma cycle_elem (ev : event) :
  ev ∈ events (cycle cfg e utc d) -> is_log ev = false -> ev ∈ events (scan cfg e utc d).
Proof.
  rewrite cycle_events, elem_of_app. intros [?|Hin] Hl; [done|].
  destruct (result _); [by apply elem_of_nil in Hin|].
  apply list_elem_of_singleton in Hin as ->. done.
Qed.

Lemma scan_elem (ev : event) :
  ev ∈ events (scan cfg e utc d) -> ev ∈ events (cycle cfg e utc d).
Proof. rewrite cycle_events, elem_of_app. by left. Qed.

(** A scan that raised leaves the store as it was and prints one line. *)
Lemma cycle_raised what :
  result (cycle cfg e utc d) = Raised what ->
  after (cycle cfg e utc d) = d
  /\ events (cycle cfg e utc d)
     = events (scan cfg e utc d) ++ [EvLog ("Reminder xato: " +:+ what)].
Proof.
  rewrite cycle_result_eq, cycle_after, cycle_events. intros Hr. rewrite Hr.
  split; [|done].
  destruct scan_cases as [[Hs _]|(o & st' & evs & _ & _ & _ & [(_ & _ & Hs)|(w & Hs & _)])];
    rewrite Hs in Hr |- *; done.
Qed.

(** Users and the id counter are not written by a scan. *)
Lemma cycle_users : users (after (cycle cfg e utc d)) = users d.
Proof.
  rewrite cycle_after.
  destruct scan_cases as [[Hs _]|(o & st' & evs & _ & _ & _ & [(_ & _ & Hs)|(w & Hs & _)])];
    by rewrite Hs.
Qed.

Lemma cycle_task_seq : task_seq (after (cycle cfg e utc d)) = task_seq d.
Proof.
  rewrite cycle_after.
  destruct scan_cases as [[Hs _]|(o & st' & evs & _ & _ & _ & [(_ & _ & Hs)|(w & Hs & _)])];
    by rewrite Hs.
Qed.

(** Every call of a scan is for a pending task of the store with a
    deadline, an address and a threshold due. *)
Lemma cycle_send_origin (ev : event) (i : Z) :
  ev ∈ events (cycle cfg e utc d) -> is_send_to i ev = true ->
  exists t T ok,
    tasks d !! i = Some t /\ is_pending t = true
    /\ due now (mk_row i t (join_chat (users d) t)) = Some T
    /\ ev = send_event (mk_row i t (join_chat (users d) t)) T ok.
Proof.
  intros Hin Hs. apply cycle_elem in Hin; [|by destruct ev].
  destruct scan_cases as [[Hsc _]|(o & st' & evs & _ & _ & Hloop & Hsc)].
  { rewrite Hsc in Hin. by apply elem_of_nil in Hin. }
  assert (ev ∈ evs) as Hin'.
  { destruct Hsc as [(_ & _ & Hsc)|(w & Hsc & _)]; by rewrite Hsc in Hin. }
  destruct (loop_send_origin _ _ _ _ _ _ _ _ Hloop ev i Hin' Hs)
    as (r & T & ok & Hr & <- & Hdue & ->).
  pose proof (select_pending_row d r Hr) as Heq.
  apply elem_of_select_pending in Hr as (Hl & Hp & _ & _).
  exists (row_task r), T, ok. rewrite <- Heq. done.
Qed.

(** At most one call per task and scan. *)
Lemma cycle_send_count (i : Z) : (count (is_send_to i) (events (cycle cfg e utc d)) <= 1)%nat.
Proof.
  rewrite cycle_count by done.
  destruct scan_cases as [[Hsc _]|(o & st' & evs & _ & _ & Hloop & Hsc)].
  { rewrite Hsc. cbn. lia. }
  pose proof (loop_send_count _ _ _ _ _ _ _ _ Hloop i) as Hc.
  pose proof (rows_with_NoDup i _ (NoDup_select_pending d)) as Hn.
  destruct Hsc as [(_ & _ & Hsc)|(w & Hsc & _)]; rewrite Hsc; cbn [events]; lia.
Qed.

(** How a scan changes the row of a task. *)
Lemma cycle_evolves (i : Z) :
  evolves i (events (cycle cfg e utc d)) (tasks d !! i)
    (tasks (after (cycle cfg e utc d)) !! i).
Proof.
  rewrite cycle_after.
  destruct scan_cases as [[Hsc _]|(o & st' & evs & _ & _ & Hloop & Hsc)].
  { rewrite Hsc. apply evolves_refl. }
  destruct Hsc as [(_ & _ & Hsc)|(w & Hsc & _)].
  - destruct (loop_conn _ _ _ _ _ _ _ _ Hloop) as [Hev _].
    eapply evolves_weaken; [|rewrite Hsc; apply (Hev i)].
    intros ev Hin. apply scan_elem. by rewrite Hsc.
  - rewrite Hsc. apply evolves_refl.
Qed.

(** A call that returned true in a scan that committed has its flag set
    in the store. *)
Lemma cycle_persist (i : Z) (T : threshold) (ev : event) :
  result (cycle cfg e utc d) = Done ->
  ev ∈ events (cycle cfg e utc d) -> is_send_with true i T ev = true ->
  exists t', tasks (after (cycle cfg e utc d)) !! i = Some t' /\ flag T t' = true.
Proof.
  intros Hres Hin Hs.
  destruct (cycle_send_origin ev i Hin) as (t & _ & _ & Hl & _).
  { by apply is_send_with_is_send, is_send_is_send_to in Hs. }
  pose proof (cycle_evolves i) as Hev. rewrite Hl in Hev.
  destruct (tasks (after (cycle cfg e utc d)) !! i) as [t'|] eqn:Hl'; [|done].
  exists t'. split; [done|].
  apply cycle_elem in Hin; [|by destruct ev].
  rewrite cycle_after in Hl'. rewrite cycle_result_eq in Hres.
  destruct scan_cases as [[Hsc _]|(o & st' & evs & _ & _ & Hloop & Hsc)].
  { by rewrite Hsc in Hres. }
  destruct Hsc as [(-> & _ & Hsc)|(w & Hsc & _)]; [|by rewrite Hsc in Hres].
  rewrite Hsc in Hin, Hl'. cbn in Hin, Hl'.
  destruct (loop_conn _ _ _ _ _ _ _ _ Hloop) as [_ Hp]. by eapply Hp.
Qed.

(** A task no call is made for keeps its row. *)
Lemma cycle_untouched (i : Z) :
  (forall ev, ev ∈ events (cycle cfg e utc d) -> is_send_to i ev = false) ->
  tasks (after (cycle cfg e utc d)) !! i = tasks d !! i.
Proof.
  intros Hno. rewrite cycle_after.
  destruct scan_cases as [[Hsc _]|(o & st' & evs & _ & _ & Hloop & Hsc)].
  { by rewrite Hsc. }
  destruct Hsc as [(_ & _ & Hsc)|(w & Hsc & _)]; [|by rewrite Hsc].
  rewrite Hsc. cbn.
  apply (loop_untouched _ _ _ _ _ _ _ _ i Hloop).
  intros ev Hin. apply Hno, scan_elem. by rewrite Hsc.
Qed.


(** A scan that ran to its end went over every row. *)
Lemma done_scanned_all : result (cycle cfg e utc d) = Done -> scanned_all cfg e utc d = true.
Proof.
  rewrite cycle_result_eq. unfold scanned_all. intros Hres.
  destruct scan_cases as [[Hsc _]|(o & st' & evs & -> & -> & Hloop & Hsc)].
  { by rewrite Hsc in Hres. }
  rewrite Hloop. destruct Hsc as [(-> & _ & _)|(w & Hsc & _)]; [done|].
  by rewrite Hsc in Hres.
Qed.

End Cycle.

(* ===================================================================== *)
(** ** What is due for a row *)
(* ===================================================================== *)

Section Due.

Lemma due_Some (now : datetime) (i : Z) (t : task) (c : option string) (T : threshold) :
  due now (mk_row i t c) = Some T <->
  exists dl td,
    deadline t = Some dl /\ truthy c = true /\ time_left now dl = Some td
    /\ in_window T (minutes_of td) /\ flag T t = false.
Proof.
  unfold due. cbn. split.
  - destruct (deadline t) as [dl|]; [|done]. destruct (truthy c); [|done].
    destruct (time_left now dl) as [td|] eqn:Htd; [|done].
    intros [Hw Hf]%candidate_Some. exists dl, td. by split_and!.
  - intros (dl & td & -> & -> & -> & Hw & Hf). by apply candidate_Some.
Qed.

Lemma due_no_address (now : datetime) (i : Z) (t : task) (c : option string) :
  truthy c = false -> due now (mk_row i t c) = None.
Proof. unfold due. cbn. intros ->. by destruct (deadline t). Qed.

Lemma due_all_sent (now : datetime) (r : row) :
  all_sent (row_task r) = true -> due now r = None.
Proof.
  unfold due. intros H. destruct (deadline _); [|done]. destruct (truthy _); [|done].
  destruct (time_left _ _); [|done]. by apply candidate_all_sent.
Qed.

End Due.

(* ===================================================================== *)
(** ** The claims *)
(* ===================================================================== *)

(** C2. The chain of conditions of the scheduler is the classification of
    the specification: the windows are the closed intervals [115,125],
    [25,35] and [3,7], looked at in the order 2h, 30m, 5m; a threshold is
    chosen exactly when the remaining minutes are in its window and its
    flag is not set; no value is in two windows; one scan makes at most
    one call of the channel per task; 120 and 124.9 minutes are in the
    2-hour window, 126 in none, 30 in the 30-minute window only. *)
Theorem C2_window_classification :
  (forall m t, candidate m t = spec_candidate m t)
  /\ (forall m t T, candidate m t = Some T <-> in_window T m /\ flag T t = false)
  /\ (forall m T T', in_window T m -> in_window T' m -> T = T')
  /\ (forall cfg e utc d i, (count (is_send_to i) (events (cycle cfg e utc d)) <= 1)%nat)
  /\ (forall t, candidate 120 t = if reminder_2h_sent t then None else Some T2h)
  /\ (forall t, candidate (1249 # 10) t = if reminder_2h_sent t then None else Some T2h)
  /\ (forall t, candidate 126 t = None)
  /\ (forall t, candidate 30 t = if reminder_30m_sent t then None else Some T30m)
  /\ in_window_b T2h 30 = false.
Proof.
  split; [apply candidate_refines|]. split; [apply candidate_Some|].
  split; [apply windows_disjoint|]. split; [apply cycle_send_count|].
  split_and!; try reflexivity.
  all: intros t; unfold candidate; cbn.
  all: by destruct (reminder_2h_sent t), (reminder_30m_sent t), (reminder_5m_sent t).
Qed.

Lemma C2_window_classification_witness :
  candidate 120 (Sample.task_in "A" 1 120) = Some T2h
  /\ T30m = T30m.
Proof.
  destruct C2_window_classification as (_ & H2 & H3 & _).
  split.
  - apply H2. split; [|reflexivity]. split; by vm_compute.
  - apply (H3 30%Q T30m T30m); split; by vm_compute.
Defined.

(** C6. A task whose assignee has no chat id (NULL, empty, or no such
    user) gets no call of the channel in a scan and its row is not
    written, whatever the world of the scan; the body of the loop ends
    normally for it, without an event and without a change. *)
Theorem C6_no_address_no_attempt cfg e utc d i t :
  tasks d !! i = Some t ->
  truthy (join_chat (users d) t) = false ->
  (forall ev, ev ∈ events (cycle cfg e utc d) -> is_send_to i ev = false)
  /\ tasks (after (cycle cfg e utc d)) !! i = Some t
  /\ (forall st, process_task cfg e (get_uzb_now utc) (mk_row i t (join_chat (users d) t)) st
                = (Done, st, [])).
Proof.
  intros Hl Hc.
  assert (forall ev, ev ∈ events (cycle cfg e utc d) -> is_send_to i ev = false) as Hno.
  { intros ev Hin. destruct (is_send_to i ev) eqn:Hs; [|done].
    destruct (cycle_send_origin cfg e utc d ev i Hin Hs) as (t' & T & ok & Hl' & _ & Hdue & _).
    assert (t' = t) as -> by congruence.
    by rewrite due_no_address in Hdue. }
  split; [done|]. split.
  - by rewrite cycle_untouched.
  - intros st. by rewrite process_task_due, due_no_address.
Qed.

Lemma C6_no_address_no_attempt_witness :
  (forall ev, ev ∈ events (cycle Sample.cfg Sample.world_ok 0 Sample.store3) ->
              is_send_to 3 ev = false)
  /\ tasks (after (cycle Sample.cfg Sample.world_ok 0 Sample.store3)) !! 3
     = Some (Sample.task_in "C" 2 120)
  /\ (forall st, process_task Sample.cfg Sample.world_ok (get_uzb_now 0)
                   (mk_row 3 (Sample.task_in "C" 2 120)
                      (join_chat (users Sample.store3) (Sample.task_in "C" 2 120))) st
                 = (Done, st, [])).
Proof.
  apply (C6_no_address_no_attempt Sample.cfg Sample.world_ok 0 Sample.store3 3
           (Sample.task_in "C" 2 120)); reflexivity.
Defined.


(** C8. When every task has its three flags set, a scan makes no
    notification attempt (no call of the channel, no POST) and leaves the
    store as it was, whatever the world of the scan. *)
Theorem C8_all_sent_idempotent cfg e utc d :
  (forall i t, tasks d !! i = Some t -> all_sent t = true) ->
  after (cycle cfg e utc d) = d
  /\ count is_attempt (events (cycle cfg e utc d)) = 0%nat.
Proof.
  intros Hall.
  assert (for_each_task cfg e (get_uzb_now utc) (select_pending d) (mk_cstate (tasks d) 0)
          = (Done, mk_cstate (tasks d) 0, [])) as Hloop.
  { apply loop_nothing_due. intros r (Hl & _)%elem_of_select_pending.
    apply due_all_sent. by eapply Hall. }
  rewrite cycle_after, cycle_count by done.
  unfold scan. rewrite Hloop.
  destruct (connect_ok e), (select_ok e), (commit_ok e); cbn; try done.
  by destruct d.
Qed.

Lemma C8_all_sent_idempotent_witness :
  after (cycle Sample.cfg Sample.world_ok 0 Sample.store_sent) = Sample.store_sent
  /\ count is_attempt (events (cycle Sample.cfg Sample.world_ok 0 Sample.store_sent)) = 0%nat.
Proof.
  apply (C8_all_sent_idempotent Sample.cfg Sample.world_ok 0 Sample.store_sent).
  intros i t H.
  destruct (decide (i = 1)) as [->|Hne].
  - vm_compute in H. by injection H as <-.
  - unfold Sample.store_sent in H. cbn [tasks] in H.
    by rewrite lookup_singleton_ne in H.
Defined.

(** A scan without a bot token: the store stays, every event is a call
    that returned false or a printed line, and when the store can be read
    every row with a threshold due has its call. *)
Lemma cycle_no_token cfg e utc d :
  nonempty (TELEGRAM_BOT_TOKEN cfg) = false ->
  after (cycle cfg e utc d) = d
  /\ (forall ev, ev ∈ events (cycle cfg e utc d) ->
        is_log ev = true \/ exists r T, ev = send_event r T false)
  /\ (connect_ok e = true -> select_ok e = true ->
      forall r T, r ∈ select_pending d -> due (get_uzb_now utc) r = Some T ->
        send_event r T false ∈ events (cycle cfg e utc d)).
Proof.
  intros Htok. rewrite cycle_after.
  destruct (scan_cases cfg e utc d) as [[Hsc Hf]|(o & st' & evs & Hc & Hs & Hloop & Hsc)].
  - rewrite cycle_events, Hsc. cbn. split; [done|]. split.
    + intros ev ->%list_elem_of_singleton. by left.
    + intros Hc Hs. by rewrite Hc, Hs in Hf.
  - destruct (loop_no_token _ _ _ _ _ _ _ _ Htok Hloop) as (-> & -> & Hevs).
    assert (after (scan cfg e utc d) = d /\ events (scan cfg e utc d) = evs) as [Ha He].
    { destruct Hsc as [(_ & _ & Hsc)|(w & Hsc & _)]; rewrite Hsc; [|done].
      by destruct d. }
    split; [done|]. split.
    + intros ev Hin. destruct (is_log ev) eqn:Hl; [by left|right].
      apply cycle_elem in Hin; [|done]. rewrite He in Hin.
      destruct (Hevs ev Hin) as (r & T & _ & ->). by exists r, T.
    + intros _ _ r T Hr Hdue.
      destruct (loop_complete _ _ _ _ _ _ _ _ Hloop eq_refl r T Hr Hdue) as [ok Hin].
      destruct (Hevs _ Hin) as (r' & T' & _ & Heq).
      assert (ok = false) as -> by (by injection Heq).
      apply scan_elem. by rewrite He.
Qed.

(** C10. With an empty bot token or an empty (or missing) chat id the
    send function returns false and makes no POST. Hence, when no token is
    configured: a scan never sets a flag (the store is left as it was, in
    any number of scans), no POST is made and no call returns true; and
    every scan that can read the store calls the channel again, in vain,
    for every pending task with an address that is inside a window whose
    flag is not set. *)
Theorem C10_unconfigured_channel cfg :
  (forall post k chat msg,
      nonempty (TELEGRAM_BOT_TOKEN cfg) = false \/ truthy chat = false ->
      send_telegram_message cfg post k chat msg = (false, k, []))
  /\ (nonempty (TELEGRAM_BOT_TOKEN cfg) = false ->
      forall e utc d,
        after (cycle cfg e utc d) = d
        /\ count is_post (events (cycle cfg e utc d)) = 0%nat
        /\ (forall i T, count (is_send_with true i T) (events (cycle cfg e utc d)) = 0%nat)
        /\ (connect_ok e = true -> select_ok e = true ->
            forall i t T dl td,
              tasks d !! i = Some t -> is_pending t = true ->
              deadline t = Some dl -> truthy (join_chat (users d) t) = true ->
              time_left (get_uzb_now utc) dl = Some td ->
              in_window T (minutes_of td) -> flag T t = false ->
              send_event (mk_row i t (join_chat (users d) t)) T false
                ∈ events (cycle cfg e utc d)))
  /\ (nonempty (TELEGRAM_BOT_TOKEN cfg) = false ->
      forall worlds d, (check_reminders cfg worlds d).1 = d).
Proof.
  split; [intros; by apply send_unconfigured|]. split.
  - intros Htok e utc d.
    destruct (cycle_no_token cfg e utc d Htok) as (Ha & Hev & Hc).
    split; [done|]. split; [|split].
    + apply count_zero_all. intros ev Hin.
      destruct (Hev ev Hin) as [Hl|(r & T & ->)]; [by destruct ev|done].
    + intros i T. apply count_zero_all. intros ev Hin.
      destruct (Hev ev Hin) as [Hl|(r & T' & ->)]; [by destruct ev|].
      rewrite is_send_with_event. cbn. by rewrite andb_false_r.
    + intros Hco Hse i t T dl td Hl Hp Hd Ht Htd Hw Hf.
      apply Hc; [done..| |].
      * apply elem_of_select_pending. cbn. unfold has_deadline. by rewrite Hd.
      * apply due_Some. by exists dl, td.
  - intros Htok worlds. induction worlds as [|[e utc] worlds IH]; intros d; [done|].
    cbn [check_reminders].
    destruct (cycle_no_token cfg e utc d Htok) as (Ha & _ & _). rewrite Ha.
    specialize (IH d). by destruct (check_reminders cfg worlds d).
Qed.

Lemma C10_unconfigured_channel_witness :
  send_telegram_message Sample.cfg_no_token (fun _ => Some 200) 0 (Some "42") "text"
  = (false, 0%nat, [])
  /\ send_event (Sample.row_of Sample.store1 1 (Sample.task_in "A" 1 120)) T2h false
     ∈ events (cycle Sample.cfg_no_token Sample.world_ok 0 Sample.store1)
  /\ (check_reminders Sample.cfg_no_token
        [(Sample.world_ok, 0); (Sample.world_ok, US_PER_MINUTE)] Sample.store1).1
     = Sample.store1.
Proof.
  destruct (C10_unconfigured_channel Sample.cfg_no_token) as (H1 & H2 & H3).
  split; [apply H1; by left|]. split.
  - destruct (H2 eq_refl Sample.world_ok 0 Sample.store1) as (_ & _ & _ & H).
    apply (H eq_refl eq_refl 1 (Sample.task_in "A" 1 120) T2h
             (mk_datetime (120 * US_PER_MINUTE + UZB_TIMEZONE) None)
             (120 * US_PER_MINUTE));
      try reflexivity.
    split; by vm_compute.
  - apply H3. reflexivity.
Defined.




(* ===================================================================== *)
(** ** Across scans *)
(* ===================================================================== *)

Section Runs.

Variable cfg : config.

Lemma check_reminders_cons e utc worlds d :
  (check_reminders cfg ((e, utc) :: worlds) d).2
  = cycle cfg e utc d :: (check_reminders cfg worlds (after (cycle cfg e utc d))).2.
Proof.
  cbn [check_reminders]. by destruct (check_reminders cfg worlds _).
Qed.

Lemma check_reminders_length worlds d :
  length (check_reminders cfg worlds d).2 = length worlds.
Proof.
  revert d. induction worlds as [|[e utc] worlds IH]; intros d; [done|].
  rewrite check_reminders_cons. cbn. by rewrite IH.
Qed.

Lemma count_pos_elem (p : event -> bool) (l : list event) :
  (0 < count p l)%nat -> exists ev, ev ∈ l /\ p ev = true.
Proof.
  induction l as [|x l IH]; [cbn; lia|]. rewrite count_cons.
  destruct (p x) eqn:Hp.
  - intros _. exists x. split; [apply elem_of_cons; by left|done].
  - intros H. destruct IH as (ev & Hin & Hev); [lia|].
    exists ev. split; [apply elem_of_cons; by right|done].
Qed.

(** A task that is gone or has its flag for [T] set stays so in a scan
    and gets no call for [T]. *)
Lemma closed_cycle e utc d i T :
  closed i T d ->
  closed i T (after (cycle cfg e utc d))
  /\ count (is_send i T) (events (cycle cfg e utc d)) = 0%nat.
Proof.
  unfold closed. intros Hc.
  pose proof (cycle_evolves cfg e utc d i) as Hev. split.
  - destruct (tasks d !! i) as [t|],
      (tasks (after (cycle cfg e utc d)) !! i) as [t'|]; cbn in Hev; try done.
    destruct Hev as (_ & Hm & _). by apply Hm.
  - apply count_zero_all. intros ev Hin.
    destruct (is_send i T ev) eqn:Hs; [|done].
    destruct (cycle_send_origin cfg e utc d ev i Hin (is_send_is_send_to _ _ _ Hs))
      as (t & T' & ok & Hl & _ & Hdue & ->).
    rewrite is_send_event in Hs. cbn [row_id] in Hs. rewrite Z.eqb_refl in Hs.
    apply threshold_eqb_eq in Hs as ->.
    apply due_Some in Hdue as (_ & _ & _ & _ & _ & _ & Hf).
    rewrite Hl in Hc. congruence.
Qed.

Lemma closed_run worlds d i T :
  closed i T d -> attempts i T (check_reminders cfg worlds d).2 = 0%nat.
Proof.
  revert d. induction worlds as [|[e utc] worlds IH]; intros d Hc; [done|].
  rewrite check_reminders_cons. cbn [attempts].
  destruct (closed_cycle e utc d i T Hc) as [Hc' ->]. by rewrite IH.
Qed.

(** All calls but one are accounted for by a false return or by a true
    return in a scan that did not commit. *)
Lemma attempts_bound worlds d i T :
  (attempts i T (check_reminders cfg worlds d).2
   <= failures i T (check_reminders cfg worlds d).2
      + lost i T (check_reminders cfg worlds d).2 + 1)%nat.
Proof.
  revert d. induction worlds as [|[e utc] worlds IH]; intros d; [cbn; lia|].
  rewrite check_reminders_cons. cbn [attempts failures lost].
  set (r := cycle cfg e utc d). specialize (IH (after r)).
  pose proof (count_send_split i T (events r)) as Hsp.
  pose proof (count_le (is_send i T) (is_send_to i) (events r)
                (is_send_is_send_to i T)) as Hle.
  pose proof (cycle_send_count cfg e utc d i) as H1. fold r in H1.
  destruct (is_done (result r)) eqn:Hd; [|lia].
  destruct (count (is_send_with true i T) (events r)) as [|n] eqn:Hn; [lia|].
  destruct (count_pos_elem (is_send_with true i T) (events r)) as (ev & Hin & Hev); [lia|].
  assert (result r = Done) as Hres by (by destruct (result r)).
  destruct (cycle_persist cfg e utc d i T ev Hres Hin Hev) as (t' & Hl & Hf).
  rewrite closed_run; [lia|]. unfold closed, r. by rewrite Hl.
Qed.

End Runs.

(** C1, as amended. Over any run of scans and for every task and
    threshold: every call of the channel but one is either a call that
    returned false or a call that returned true in a scan that raised
    before its commit; and after a scan that committed and in which a call
    for the task and threshold returned true, no later scan calls the
    channel for them again. *)
Theorem C1_at_most_once_when_committed cfg d worlds i T :
  (attempts i T (check_reminders cfg worlds d).2
   <= failures i T (check_reminders cfg worlds d).2
      + lost i T (check_reminders cfg worlds d).2 + 1)%nat
  /\ (forall e utc ev,
        result (cycle cfg e utc d) = Done ->
        ev ∈ events (cycle cfg e utc d) ->
        is_send_with true i T ev = true ->
        attempts i T (check_reminders cfg worlds (after (cycle cfg e utc d))).2 = 0%nat).
Proof.
  split; [apply attempts_bound|].
  intros e utc ev Hres Hin Hev.
  destruct (cycle_persist cfg e utc d i T ev Hres Hin Hev) as (t' & Hl & Hf).
  apply closed_run. unfold closed. by rewrite Hl.
Qed.

Lemma C1_at_most_once_when_committed_witness :
  attempts 1 T2h
    (check_reminders Sample.cfg Sample.locked_then_ok
       (after (cycle Sample.cfg Sample.world_ok 0 Sample.store1))).2 = 0%nat.
Proof.
  apply (proj2 (C1_at_most_once_when_committed Sample.cfg Sample.store1
                  Sample.locked_then_ok 1 T2h)
           Sample.world_ok 0
           (send_event (Sample.row_of Sample.store1 1 (Sample.task_in "A" 1 120)) T2h true));
    [reflexivity| |reflexivity].
  vm_compute. apply list_elem_of_further, list_elem_of_here.
Defined.

(** C1 as stated fails: the task stays inside the 2-hour window with an
    address over two scans; the call of the first scan returns true but
    its [UPDATE] raises, so the flag is not set and the second scan calls
    again. Two calls, no failed delivery. *)
Lemma C1_counterexample :
  due (get_uzb_now 0) (Sample.row_of Sample.store1 1 (Sample.task_in "A" 1 120)) = Some T2h
  /\ due (get_uzb_now US_PER_MINUTE)
       (Sample.row_of Sample.store1 1 (Sample.task_in "A" 1 120)) = Some T2h
  /\ attempts 1 T2h (check_reminders Sample.cfg Sample.locked_then_ok Sample.store1).2 = 2%nat
  /\ failures 1 T2h (check_reminders Sample.cfg Sample.locked_then_ok Sample.store1).2 = 0%nat
  /\ ~ (attempts 1 T2h (check_reminders Sample.cfg Sample.locked_then_ok Sample.store1).2
        <= failures 1 T2h (check_reminders Sample.cfg Sample.locked_then_ok Sample.store1).2
           + 1)%nat.
Proof.
  assert (attempts 1 T2h (check_reminders Sample.cfg Sample.locked_then_ok Sample.store1).2
          = 2%nat) as Ha by (by vm_compute).
  assert (failures 1 T2h (check_reminders Sample.cfg Sample.locked_then_ok Sample.store1).2
          = 0%nat) as Hf by (by vm_compute).
  split_and!; [by vm_compute|by vm_compute|done|done|]. rewrite Ha, Hf. lia.
Qed.

(** C4, as amended. An exception in the body of the [try] is caught by
    the one handler around the whole scan:
    - the loop goes on: every scan of a run is made, whatever happened in
      the scans before it;
    - a scan that raised leaves the store as it was (what it wrote is not
      committed) and ends with the printed line;
    - an exception in the body of one row ends the [for] loop: the rows
      after it are not looked at in that scan;
    - an exception of the POST does not raise in the scan: when the store
      can be read and takes the writes and the commit, the scan runs to
      its end whatever the POSTs do. *)
Theorem C4_error_ends_scan_not_loop cfg :
  (forall worlds d, length (check_reminders cfg worlds d).2 = length worlds)
  /\ (forall e utc d what,
        result (cycle cfg e utc d) = Raised what ->
        after (cycle cfg e utc d) = d
        /\ last (events (cycle cfg e utc d)) = Some (EvLog ("Reminder xato: " +:+ what)))
  /\ (forall e utc r rest st what st1 evs,
        process_task cfg e (get_uzb_now utc) r st = (Raised what, st1, evs) ->
        for_each_task cfg e (get_uzb_now utc) (r :: rest) st = (Raised what, st1, evs))
  /\ (forall e utc d,
        connect_ok e = true -> select_ok e = true -> commit_ok e = true ->
        (forall j T, update_ok e j T = true) ->
        result (cycle cfg e utc d) = Done).
Proof.
  split_and!.
  - apply check_reminders_length.
  - intros e utc d what Hr. destruct (cycle_raised cfg e utc d what Hr) as [Ha He].
    split; [done|]. rewrite He. apply last_snoc.
  - intros e utc r rest st what st1 evs. apply loop_raise.
  - intros e utc d Hc Hs Hco Hupd. rewrite cycle_result_eq.
    destruct (scan_cases cfg e utc d) as [[_ Hf]|(o & st' & evs & _ & _ & Hloop & Hsc)].
    { by rewrite Hc, Hs in Hf. }
    pose proof (loop_done cfg e utc _ _ _ _ _ Hupd Hloop) as ->.
    destruct Hsc as [(_ & _ & ->)|(w & _ & Hf)]; [done|].
    rewrite Hf in Hco; done.
Qed.

Lemma C4_error_ends_scan_not_loop_witness :
  after (cycle Sample.cfg Sample.world_locked 0 Sample.store3) = Sample.store3
  /\ last (events (cycle Sample.cfg Sample.world_locked 0 Sample.store3))
     = Some (EvLog ("Reminder xato: " +:+ "OperationalError"))
  /\ result (cycle Sample.cfg Sample.world_offline 0 Sample.store3) = Done.
Proof.
  destruct (C4_error_ends_scan_not_loop Sample.cfg) as (_ & H2 & _ & H4).
  split_and!.
  - apply (H2 Sample.world_locked 0 Sample.store3 "OperationalError"). reflexivity.
  - apply (H2 Sample.world_locked 0 Sample.store3 "OperationalError"). reflexivity.
  - apply H4; reflexivity.
Defined.

(** C4 as stated fails: tasks 1 and 2 are both due in the scan, the
    [UPDATE] of the row that comes first raises, and the other one is not
    called for in that scan: one call for two due tasks. *)
Lemma C4_counterexample :
  due (get_uzb_now 0) (Sample.row_of Sample.store3 1 (Sample.task_in "A" 1 120)) = Some T2h
  /\ due (get_uzb_now 0) (Sample.row_of Sample.store3 2 (Sample.task_in "B" 1 30)) = Some T30m
  /\ result (cycle Sample.cfg Sample.world_locked 0 Sample.store3) = Raised "OperationalError"
  /\ (count (is_send_to 1) (events (cycle Sample.cfg Sample.world_locked 0 Sample.store3))
      + count (is_send_to 2) (events (cycle Sample.cfg Sample.world_locked 0 Sample.store3))
      = 1)%nat.
Proof. split_and!; by vm_compute. Qed.

(* ===================================================================== *)
(** ** Everything that writes [tasks] *)
(* ===================================================================== *)

Section Ops.

Variable cfg : config.

Lemma next_id_above (d : db) : task_seq d < next_id d.
Proof. unfold next_id. lia. Qed.

(** No operation sets a flag back, and ids given out are not given again. *)
Lemma closed_apply_op (o : op) (d : db) (i : Z) (T : threshold) :
  i <= task_seq d -> closed i T d ->
  i <= task_seq (apply_op cfg o d) /\ closed i T (apply_op cfg o d).
Proof.
  intros Hi Hc. destruct o as [e utc|ti de a due|id ti de a due|id u note utc|id];
    cbn [apply_op].
  - rewrite cycle_task_seq. split; [done|]. by apply closed_cycle.
  - unfold add_task. destruct a as [uid|]; [|done]. destruct (nonempty ti && fits_int64 uid); [|done].
    pose proof (next_id_above d). cbn. split; [lia|].
    unfold closed in *. cbn. rewrite lookup_insert_ne by lia. done.
  - unfold edit_task. destruct (tasks d !! id) as [t0|] eqn:Hl; [|done].
    destruct a as [uid|]; [|done]. destruct (nonempty ti && fits_int64 uid); [|done].
    cbn. split; [done|]. unfold closed in *. cbn.
    destruct (decide (id = i)) as [->|Hne].
    + rewrite lookup_alter_eq. rewrite Hl in Hc |- *. cbn. by destruct T.
    + by rewrite lookup_alter_ne.
  - unfold complete_task. destruct (tasks d !! id) as [t0|] eqn:Hl; [|done].
    destruct (bool_decide _); [|done].
    cbn. split; [done|]. unfold closed in *. cbn.
    destruct (decide (id = i)) as [->|Hne].
    + rewrite lookup_alter_eq. rewrite Hl in Hc |- *. cbn. by destruct T.
    + by rewrite lookup_alter_ne.
  - unfold delete_task. cbn. split; [done|]. unfold closed in *. cbn.
    destruct (decide (id = i)) as [->|Hne].
    + by rewrite lookup_delete_eq.
    + by rewrite lookup_delete_ne.
Qed.

Lemma closed_apply_ops (os : list op) (d : db) (i : Z) (T : threshold) :
  i <= task_seq d -> closed i T d -> closed i T (apply_ops cfg os d).
Proof.
  revert d. induction os as [|o os IH]; intros d Hi Hc; [done|].
  unfold apply_ops. cbn [foldl].
  destruct (closed_apply_op o d i T Hi Hc) as [Hi' Hc']. by apply IH.
Qed.

(** Only its deletion removes a row. *)
Lemma apply_op_keeps (o : op) (d : db) (i : Z) (t : task) :
  tasks d !! i = Some t -> o <> OpDelete i ->
  exists t', tasks (apply_op cfg o d) !! i = Some t'.
Proof.
  intros Hl Ho. destruct o as [e utc|ti de a due|id ti de a due|id u note utc|id];
    cbn [apply_op].
  - pose proof (cycle_evolves cfg e utc d i) as Hev. rewrite Hl in Hev.
    destruct (tasks (after (cycle cfg e utc d)) !! i) as [t'|]; [by eexists|done].
  - unfold add_task. destruct a as [uid|]; [|by eexists].
    destruct (nonempty ti && fits_int64 uid); [|by eexists]. cbn.
    destruct (decide (next_id d = i)) as [<-|Hne].
    + rewrite lookup_insert_eq. by eexists.
    + rewrite lookup_insert_ne by done. by eexists.
  - unfold edit_task. destruct (tasks d !! id) as [t0|] eqn:Hl0; [|by eexists].
    destruct a as [uid|]; [|by eexists]. destruct (nonempty ti && fits_int64 uid); [|by eexists]. cbn.
    destruct (decide (id = i)) as [->|Hne].
    + rewrite lookup_alter_eq, Hl. by eexists.
    + rewrite lookup_alter_ne by done. by eexists.
  - unfold complete_task. destruct (tasks d !! id) as [t0|] eqn:Hl0; [|by eexists].
    destruct (bool_decide _); [|by eexists]. cbn.
    destruct (decide (id = i)) as [->|Hne].
    + rewrite lookup_alter_eq, Hl. by eexists.
    + rewrite lookup_alter_ne by done. by eexists.
  - unfold delete_task. cbn. rewrite lookup_delete_ne by congruence. by eexists.
Qed.

End Ops.

(** C5. In a store whose ids were all given out by the counter, a flag
    that is set stays set: after any sequence of scans, insertions,
    edits, completions and deletions, the row of the same id, if there is
    one, has the flag set; every operation other than the deletion of the
    task keeps the row, with the flag set. A deleted id is not given out
    again, so a false flag is seen only on the row of another id. *)
Theorem C5_flags_monotone cfg d i T t :
  ids_below_seq d ->
  tasks d !! i = Some t ->
  flag T t = true ->
  (forall os t', tasks (apply_ops cfg os d) !! i = Some t' -> flag T t' = true)
  /\ (forall o, o <> OpDelete i ->
        exists t', tasks (apply_op cfg o d) !! i = Some t' /\ flag T t' = true).
Proof.
  intros Hwf Hl Hf.
  assert (i <= task_seq d) as Hi by (by eapply Hwf).
  assert (closed i T d) as Hc by (unfold closed; by rewrite Hl).
  split.
  - intros os t' Hl'. pose proof (closed_apply_ops cfg os d i T Hi Hc) as Hc'.
    unfold closed in Hc'. by rewrite Hl' in Hc'.
  - intros o Ho. destruct (apply_op_keeps cfg o d i t Hl Ho) as [t' Hl'].
    exists t'. split; [done|].
    destruct (closed_apply_op cfg o d i T Hi Hc) as [_ Hc'].
    unfold closed in Hc'. by rewrite Hl' in Hc'.
Qed.

Lemma C5_flags_monotone_witness :
  (forall os t',
      tasks (apply_ops Sample.cfg os Sample.store_sent) !! 1 = Some t' ->
      flag T30m t' = true)
  /\ (forall o, o <> OpDelete 1 ->
        exists t', tasks (apply_op Sample.cfg o Sample.store_sent) !! 1 = Some t'
                   /\ flag T30m t' = true).
Proof.
  apply (C5_flags_monotone Sample.cfg Sample.store_sent 1 T30m
           (mk_task "A" None (Some 1)
              (Some (mk_datetime (120 * US_PER_MINUTE + UZB_TIMEZONE) None))
              pending None None true true true)); [|reflexivity|reflexivity].
  intros j t' H. destruct (decide (j = 1)) as [->|Hne]; [by vm_compute|].
  unfold Sample.store_sent in H. cbn [tasks] in H.
  by rewrite lookup_singleton_ne in H.
Defined.

(* ===================================================================== *)
(** ** The start-up guard *)
(* ===================================================================== *)

Section GuardFacts.

Import Guard.

Lemma pc_of_goto (s : gstate) (i j : nat) (p : pc) b l n m :
  pc_of (mk_gstate b l n m (goto s i p)) j = if decide (j = i) then p else pc_of s j.
Proof.
  unfold pc_of, goto. cbn. destruct (decide (j = i)) as [->|Hne].
  - by rewrite lookup_insert_eq.
  - by rewrite lookup_insert_ne.
Qed.

Lemma invariant_init : invariant init.
Proof.
  split; try done.
  cbn. lia.
Qed.

Local Ltac pcs :=
  unfold inside, started_not_flagged in *;
  cbn [reminder_lock reminder_thread_started loops returned] in *;
  rewrite ?pc_of_goto in *.

(** Case analysis on the caller that moved, on the holder of the lock
    and on the flag, then the clause of the invariant that applies. *)
Local Ltac step_case :=
  intros; pcs;
  repeat (match goal with
    | H : Some _ = Some _ |- _ => injection H as H; subst
    | H : reminder_lock ?s = _ |- context [match reminder_lock ?s with _ => _ end] =>
        rewrite H
    | |- context [match reminder_lock ?s with _ => _ end] =>
        destruct (reminder_lock s) eqn:?
    | H : context [decide (?a = ?b)] |- _ => destruct (decide (a = b)); subst
    | |- context [decide (?a = ?b)] => destruct (decide (a = b)); subst
    | H : pc_of ?s ?i = _ |- context [pc_of ?s ?i] => rewrite H
    | H : reminder_thread_started ?s = _ |- context [reminder_thread_started ?s] =>
        rewrite H
    | |- context [if reminder_thread_started ?s then _ else _] =>
        destruct (reminder_thread_started s) eqn:?
    | H : context [if reminder_thread_started ?s then _ else _] |- _ =>
        destruct (reminder_thread_started s) eqn:?
    end; rewrite ?pc_of_goto in *);
  try done; try congruence; try (intuition congruence); eauto;
  try match goal with
      | I : forall j, _ = true -> reminder_lock _ = Some j,
        H : match pc_of _ _ with _ => _ end = true |- _ => apply I in H; congruence
      | I : forall j, _ = true -> None = Some j,
        H : match pc_of _ _ with _ => _ end = true |- _ => apply I in H; congruence
      end;
  try match goal with
      | I : loops _ = _ |- _ =>
          rewrite I;
          repeat match goal with H : reminder_lock _ = _ |- _ => rewrite H end;
          repeat match goal with H : pc_of _ _ = _ |- _ => rewrite H end;
          repeat match goal with H : reminder_thread_started _ = _ |- _ => rewrite H end;
          done
      end.

Lemma invariant_step (s : gstate) (i : nat) : invariant s -> invariant (step s i).
Proof.
  intros Hinv. pose proof Hinv as [I1 I2 I3 I4 I5 I6]. unfold step.
  destruct (pc_of s i) eqn:Hpc.
  - (* Idle: the call begins *)
    assert (reminder_lock s <> Some i) as Hni.
    { intros Hh. specialize (I2 i Hh). unfold inside in I2. by rewrite Hpc in I2. }
    split; step_case.
  - (* AtLock: the lock is taken if it is free *)
    destruct (reminder_lock s) as [h|] eqn:Hlock; [done|]. clear Hinv.
    split; step_case.
  - (* AtCheck: the flag is read *)
    assert (reminder_lock s = Some i) as Hlock.
    { apply I1. unfold inside. by rewrite Hpc. }
    split; step_case.
  - (* AtSpawn: thread.start() *)
    assert (reminder_lock s = Some i) as Hlock.
    { apply I1. unfold inside. by rewrite Hpc. }
    assert (reminder_thread_started s = false) as Hst by (apply (I4 i); auto).
    split; step_case.
  - (* AtSet: reminder_thread_started = True *)
    assert (reminder_lock s = Some i) as Hlock.
    { apply I1. unfold inside. by rewrite Hpc. }
    assert (reminder_thread_started s = false) as Hst by (apply (I4 i); auto).
    split; step_case.
  - (* AtUnlock: the lock is released, the call returns *)
    assert (reminder_lock s = Some i) as Hlock.
    { apply I1. unfold inside. by rewrite Hpc. }
    assert (reminder_thread_started s = true) as Hst by (by apply (I5 i)).
    split; step_case.
Qed.

Lemma invariant_run (schedule : list nat) (s : gstate) :
  invariant s -> invariant (run schedule s).
Proof.
  revert s. induction schedule as [|i schedule IH]; intros s Hs; [done|].
  unfold run. cbn [foldl]. apply IH. by apply invariant_step.
Qed.

End GuardFacts.

(** C9. Whatever the callers of [start_reminder_thread] and however
    their steps interleave: at most one [check_reminders] thread is ever
    started; once a call has returned exactly one has been started; at
    most one caller is inside the [with] block, the one that holds
    [reminder_lock], so nothing happens between its test of
    [reminder_thread_started] and its assignment. *)
Theorem C9_single_loop (schedule : list nat) :
  (Guard.loops (Guard.run schedule Guard.init) <= 1)%nat
  /\ ((0 < Guard.returned (Guard.run schedule Guard.init))%nat ->
      Guard.loops (Guard.run schedule Guard.init) = 1%nat)
  /\ (forall i j,
        Guard.inside (Guard.run schedule Guard.init) i = true ->
        Guard.inside (Guard.run schedule Guard.init) j = true -> i = j)
  /\ (forall i,
        Guard.inside (Guard.run schedule Guard.init) i = true ->
        Guard.reminder_lock (Guard.run schedule Guard.init) = Some i).
Proof.
  pose proof (invariant_run schedule Guard.init invariant_init) as [I1 I2 I3 I4 I5 I6].
  set (s := Guard.run schedule Guard.init) in *.
  assert (Guard.reminder_thread_started s = true -> Guard.started_not_flagged s = 0%nat)
    as Hz.
  { intros Hst. unfold Guard.started_not_flagged.
    destruct (Guard.reminder_lock s) as [h|] eqn:Hlock; [|done].
    destruct (Guard.pc_of s h) eqn:Hpc; try done.
    assert (Guard.reminder_thread_started s = false) by (apply (I4 h); auto).
    congruence. }
  split_and!.
  - rewrite I3. destruct (Guard.reminder_thread_started s); [by rewrite Hz|].
    unfold Guard.started_not_flagged.
    destruct (Guard.reminder_lock s) as [h|]; [|lia]. destruct (Guard.pc_of s h); lia.
  - intros Hr. rewrite I3, (I6 Hr), Hz; [done|by apply I6].
  - intros i j Hi Hj. pose proof (I1 i Hi). pose proof (I1 j Hj). congruence.
  - apply I1.
Qed.

Lemma C9_single_loop_witness :
  Guard.loops (Guard.run [0; 1; 0; 1; 0; 0; 0; 0; 1; 1; 1; 1]%nat Guard.init) = 1%nat.
Proof.
  apply (proj1 (proj2 (C9_single_loop [0; 1; 0; 1; 0; 0; 0; 0; 1; 1; 1; 1]%nat))).
  vm_compute. lia.
Defined.

(* ===================================================================== *)
(** ** Further properties of the scheduler *)
(* ===================================================================== *)

Section MoreCounting.

Lemma count_disjoint (p q r : event -> bool) (l : list event) :
  (forall ev, p ev = true -> q ev = true -> False) ->
  (forall ev, p ev = true -> r ev = true) ->
  (forall ev, q ev = true -> r ev = true) ->
  (count p l + count q l <= count r l)%nat.
Proof.
  intros Hpq Hpr Hqr. induction l as [|x l IH]; [cbn; lia|].
  rewrite !count_cons.
  destruct (p x) eqn:Hp, (q x) eqn:Hq; try (by destruct (Hpq x)).
  - rewrite (Hpr x Hp). lia.
  - rewrite (Hqr x Hq). lia.
  - destruct (r x); lia.
Qed.

End MoreCounting.

(** Every call of the channel in a scan is justified by the store the
    scan read: the task is pending, has a deadline and an assignee with a
    chat id, its remaining minutes at the time of the scan are in the
    window of the threshold, the flag of the threshold is not set, the
    call goes to the assignee's chat id and carries the template of the
    threshold with the title of the task. *)
Theorem scan_send_justified cfg e utc d i T c m ok :
  EvSend i T c m ok ∈ events (cycle cfg e utc d) ->
  exists t dl td,
    tasks d !! i = Some t /\ is_pending t = true /\ deadline t = Some dl
    /\ c = join_chat (users d) t /\ truthy c = true
    /\ time_left (get_uzb_now utc) dl = Some td
    /\ in_window T (minutes_of td) /\ flag T t = false
    /\ m = reminder_message T (title t).
Proof.
  intros Hin.
  destruct (cycle_send_origin cfg e utc d _ i Hin) as (t & T' & ok' & Hl & Hp & Hdue & Heq).
  { cbn. apply Z.eqb_refl. }
  unfold send_event in Heq. cbn in Heq. injection Heq as -> -> -> ->.
  apply due_Some in Hdue as (dl & td & Hd & Hc & Htd & Hw & Hf).
  exists t, dl, td. by split_and!.
Qed.

Lemma scan_send_justified_witness :
  exists t dl td,
    tasks Sample.store1 !! 1 = Some t /\ is_pending t = true /\ deadline t = Some dl
    /\ Some "42" = join_chat (users Sample.store1) t /\ truthy (Some "42") = true
    /\ time_left (get_uzb_now 0) dl = Some td
    /\ in_window T2h (minutes_of td) /\ flag T2h t = false
    /\ reminder_message T2h "A" = reminder_message T2h (title t).
Proof.
  apply (scan_send_justified Sample.cfg Sample.world_ok 0 Sample.store1 1 T2h
           (Some "42") (reminder_message T2h "A") true).
  vm_compute. apply list_elem_of_further, list_elem_of_here.
Defined.

(** A scan neither inserts nor deletes a row. *)
Lemma cycle_keeps_ids cfg e utc d i :
  tasks (after (cycle cfg e utc d)) !! i = None <-> tasks d !! i = None.
Proof.
  pose proof (cycle_evolves cfg e utc d i) as Hev.
  destruct (tasks d !! i), (tasks (after (cycle cfg e utc d)) !! i); cbn in Hev; try done.
Qed.

(** A scan writes nothing but reminder flags, and only from 0 to 1: the
    users and the id counter are as before, no row appears or disappears,
    and every row keeps its title, description, assignee, deadline,
    status and completion columns. *)
Theorem scan_writes_only_flags cfg e utc d :
  users (after (cycle cfg e utc d)) = users d
  /\ task_seq (after (cycle cfg e utc d)) = task_seq d
  /\ (forall i, tasks (after (cycle cfg e utc d)) !! i = None <-> tasks d !! i = None)
  /\ (forall i t t',
        tasks d !! i = Some t -> tasks (after (cycle cfg e utc d)) !! i = Some t' ->
        same_but_flags t t' /\ forall T, flag T t = true -> flag T t' = true).
Proof.
  split; [apply cycle_users|]. split; [apply cycle_task_seq|]. split.
  - intros i. apply cycle_keeps_ids.
  - intros i t t' Hl Hl'. pose proof (cycle_evolves cfg e utc d i) as Hev.
    rewrite Hl, Hl' in Hev. destruct Hev as (? & ? & _). done.
Qed.

Lemma scan_writes_only_flags_witness :
  same_but_flags (Sample.task_in "A" 1 120) (mark_sent T2h (Sample.task_in "A" 1 120)).
Proof.
  destruct (scan_writes_only_flags Sample.cfg Sample.world_ok 0 Sample.store1)
    as (_ & _ & _ & H).
  apply (H 1 (Sample.task_in "A" 1 120) (mark_sent T2h (Sample.task_in "A" 1 120)));
    reflexivity.
Defined.

(** A call that returned true in a scan that committed sets the flag of
    its threshold and nothing else in the row of its task. *)
Theorem committed_send_sets_its_flag cfg e utc d i T c m t :
  result (cycle cfg e utc d) = Done ->
  EvSend i T c m true ∈ events (cycle cfg e utc d) ->
  tasks d !! i = Some t ->
  tasks (after (cycle cfg e utc d)) !! i = Some (mark_sent T t).
Proof.
  intros Hres Hin Hl.
  assert (is_send_with true i T (EvSend i T c m true) = true) as Hs.
  { cbn. by rewrite Z.eqb_refl, threshold_eqb_refl. }
  destruct (cycle_persist cfg e utc d i T _ Hres Hin Hs) as (t' & Hl' & Hf').
  rewrite Hl'. f_equal.
  pose proof (cycle_evolves cfg e utc d i) as Hev. rewrite Hl, Hl' in Hev.
  destruct Hev as (Hsame & Hm & Hb).
  apply same_flags_eq.
  - unfold same_but_flags in *. destruct_and!. by destruct T; cbn; split_and!.
  - intros T'. rewrite flag_mark_sent.
    destruct (threshold_eqb T T') eqn:E; [by apply threshold_eqb_eq in E as <-|].
    destruct (flag T' t') eqn:Ht'.
    + destruct (Hb T' Ht') as [->|(ev & Hin' & Hev')]; [done|exfalso].
      pose proof (count_elem _ _ _ Hin Hs) as H1.
      pose proof (count_elem _ _ _ Hin' Hev') as H2.
      pose proof (count_disjoint (is_send_with true i T) (is_send_with true i T')
                    (is_send_to i) (events (cycle cfg e utc d))) as Hd.
      pose proof (cycle_send_count cfg e utc d i) as Hc.
      assert (count (is_send_with true i T) (events (cycle cfg e utc d))
              + count (is_send_with true i T') (events (cycle cfg e utc d))
              <= count (is_send_to i) (events (cycle cfg e utc d)))%nat; [|lia].
      apply Hd.
      * intros [j T0 ? ? ?| |]; cbn; try done.
        intros [[_ Ha]%andb_true_iff _]%andb_true_iff
               [[_ Hb']%andb_true_iff _]%andb_true_iff.
        apply threshold_eqb_eq in Ha, Hb'. subst. by rewrite threshold_eqb_refl in E.
      * intros ev0 H0. by eapply is_send_is_send_to, is_send_with_is_send.
      * intros ev0 H0. by eapply is_send_is_send_to, is_send_with_is_send.
    + destruct (flag T' t) eqn:Ht; [|done]. by rewrite (Hm T' Ht) in Ht'.
Qed.

Lemma committed_send_sets_its_flag_witness :
  tasks (after (cycle Sample.cfg Sample.world_ok 0 Sample.store1)) !! 1
  = Some (mark_sent T2h (Sample.task_in "A" 1 120)).
Proof.
  apply (committed_send_sets_its_flag Sample.cfg Sample.world_ok 0 Sample.store1 1 T2h
           (Some "42") (reminder_message T2h "A") (Sample.task_in "A" 1 120));
    [reflexivity| |reflexivity].
  vm_compute. apply list_elem_of_further, list_elem_of_here.
Defined.

(** [is_overdue] never raises, for a naive as for an aware deadline; no
    deadline is not overdue; a deadline is overdue exactly when the
    remaining time the scheduler computes for it is negative; and the
    scheduler makes no call for a task whose deadline is overdue. *)
Theorem overdue_gets_no_reminder cfg e utc d :
  is_overdue utc None = Some false
  /\ (forall dl,
        exists td, time_left (get_uzb_now utc) dl = Some td
                   /\ is_overdue utc (Some dl) = Some (td <? 0))
  /\ (forall i t dl,
        tasks d !! i = Some t -> deadline t = Some dl ->
        is_overdue utc (Some dl) = Some true ->
        count (is_send_to i) (events (cycle cfg e utc d)) = 0%nat).
Proof.
  split; [done|]. split.
  - intros dl. eexists. split; [apply time_left_uzb|]. rewrite is_overdue_uzb.
    f_equal. apply eq_true_iff_eq. rewrite !Z.ltb_lt. lia.
  - intros i t dl Hl Hd Hov. apply count_zero_all. intros ev Hin.
    destruct (is_send_to i ev) eqn:Hs; [|done].
    destruct (cycle_send_origin cfg e utc d ev i Hin Hs) as (t' & T & ok & Hl' & _ & Hdue & _).
    assert (t' = t) as -> by congruence.
    apply due_Some in Hdue as (dl' & td & Hd' & _ & Htd & [Hlo _] & _).
    assert (dl' = dl) as -> by congruence.
    rewrite is_overdue_uzb in Hov. rewrite time_left_uzb in Htd.
    injection Hov as Hov. injection Htd as <-. apply Z.ltb_lt in Hov.
    apply Qle_bool_iff in Hlo. rewrite Qle_bool_minutes_lower in Hlo.
    apply Z.leb_le in Hlo. destruct T; cbn in Hlo; unfold US_PER_MINUTE, US_PER_SECOND in Hlo; lia.
Qed.

Lemma overdue_gets_no_reminder_witness :
  count (is_send_to 1)
    (events (cycle Sample.cfg Sample.world_ok (200 * US_PER_MINUTE) Sample.store1)) = 0%nat.
Proof.
  apply (proj2 (proj2 (overdue_gets_no_reminder Sample.cfg Sample.world_ok
                         (200 * US_PER_MINUTE) Sample.store1))
           1 (Sample.task_in "A" 1 120)
           (mk_datetime (120 * US_PER_MINUTE + UZB_TIMEZONE) None)); reflexivity.
Defined.

(* ===================================================================== *)
(** ** Histories: scans mixed with the handlers *)
(* ===================================================================== *)

Section Histories.

Variable cfg : config.

Lemma run_ops_cons o os d :
  run_ops cfg (o :: os) d
  = ((run_ops cfg os (apply_op cfg o d)).1,
     match o with
     | OpCycle e utc => events (cycle cfg e utc d)
     | _ => []
     end ++ (run_ops cfg os (apply_op cfg o d)).2).
Proof. cbn [run_ops]. by destruct (run_ops cfg os (apply_op cfg o d)). Qed.

Lemma run_ops_store os d : (run_ops cfg os d).1 = apply_ops cfg os d.
Proof.
  revert d. induction os as [|o os IH]; intros d; [done|].
  rewrite run_ops_cons. cbn. by rewrite IH.
Qed.

(** Once a task is gone or its flag set, no history calls for it. *)
Lemma closed_run_ops os d i T :
  i <= task_seq d -> closed i T d -> count (is_send i T) (run_ops cfg os d).2 = 0%nat.
Proof.
  revert d. induction os as [|o os IH]; intros d Hi Hc; [done|].
  rewrite run_ops_cons. cbn [snd]. rewrite count_app.
  destruct (closed_apply_op cfg o d i T Hi Hc) as [Hi' Hc'].
  rewrite (IH _ Hi' Hc').
  destruct o; try done. by destruct (closed_cycle cfg e utc d i T Hc) as [_ ->].
Qed.

Lemma muted_cycle e utc d i :
  muted i d ->
  muted i (after (cycle cfg e utc d))
  /\ count (is_send_to i) (events (cycle cfg e utc d)) = 0%nat.
Proof.
  unfold muted. intros Hm. split.
  - pose proof (cycle_evolves cfg e utc d i) as Hev.
    destruct (tasks d !! i) as [t|],
      (tasks (after (cycle cfg e utc d)) !! i) as [t'|]; cbn in Hev; try done.
    destruct Hev as ((_ & _ & _ & _ & Hst & _) & _). unfold is_pending in *.
    by rewrite Hst.
  - apply count_zero_all. intros ev Hin. destruct (is_send_to i ev) eqn:Hs; [|done].
    destruct (cycle_send_origin cfg e utc d ev i Hin Hs) as (t & _ & _ & Hl & Hp & _).
    rewrite Hl in Hm. congruence.
Qed.

Lemma muted_apply_op o d i :
  i <= task_seq d -> muted i d ->
  i <= task_seq (apply_op cfg o d) /\ muted i (apply_op cfg o d).
Proof.
  intros Hi Hm. destruct o as [e utc|ti de a due|id ti de a due|id u note utc|id];
    cbn [apply_op].
  - rewrite cycle_task_seq. split; [done|]. by apply muted_cycle.
  - unfold add_task. destruct a as [uid|]; [|done]. destruct (nonempty ti && fits_int64 uid); [|done].
    pose proof (next_id_above d). cbn. split; [lia|].
    unfold muted in *. cbn. by rewrite lookup_insert_ne by lia.
  - unfold edit_task. destruct (tasks d !! id) as [t0|] eqn:Hl; [|done].
    destruct a as [uid|]; [|done]. destruct (nonempty ti && fits_int64 uid); [|done].
    cbn. split; [done|]. unfold muted in *. cbn.
    destruct (decide (id = i)) as [->|Hne].
    + rewrite lookup_alter_eq. by rewrite Hl in Hm |- *.
    + by rewrite lookup_alter_ne.
  - unfold complete_task. destruct (tasks d !! id) as [t0|] eqn:Hl; [|done].
    destruct (bool_decide _); [|done].
    cbn. split; [done|]. unfold muted in *. cbn.
    destruct (decide (id = i)) as [->|Hne].
    + rewrite lookup_alter_eq. by rewrite Hl.
    + by rewrite lookup_alter_ne.
  - unfold delete_task. cbn. split; [done|]. unfold muted in *. cbn.
    destruct (decide (id = i)) as [->|Hne].
    + by rewrite lookup_delete_eq.
    + by rewrite lookup_delete_ne.
Qed.

Lemma muted_run_ops os d i :
  i <= task_seq d -> muted i d -> count (is_send_to i) (run_ops cfg os d).2 = 0%nat.
Proof.
  revert d. induction os as [|o os IH]; intros d Hi Hm; [done|].
  rewrite run_ops_cons. cbn [snd]. rewrite count_app.
  destruct (muted_apply_op o d i Hi Hm) as [Hi' Hm'].
  rewrite (IH _ Hi' Hm').
  destruct o; try done. by destruct (muted_cycle e utc d i Hm) as [_ ->].
Qed.

(** An id that is not in the table and not above the counter stays out. *)
Lemma gone_apply_op o d i :
  i <= task_seq d -> tasks d !! i = None ->
  i <= task_seq (apply_op cfg o d) /\ tasks (apply_op cfg o d) !! i = None.
Proof.
  intros Hi Hg. destruct o as [e utc|ti de a due|id ti de a due|id u note utc|id];
    cbn [apply_op].
  - rewrite cycle_task_seq. split; [done|].
    by apply cycle_keeps_ids.
  - unfold add_task. destruct a as [uid|]; [|done]. destruct (nonempty ti && fits_int64 uid); [|done].
    pose proof (next_id_above d). cbn. split; [lia|]. by rewrite lookup_insert_ne by lia.
  - unfold edit_task. destruct (tasks d !! id) as [t0|] eqn:Hl; [|done].
    destruct a as [uid|]; [|done]. destruct (nonempty ti && fits_int64 uid); [|done].
    cbn. split; [done|]. rewrite lookup_alter. case_decide; [|done].
    subst. by rewrite Hg.
  - unfold complete_task. destruct (tasks d !! id) as [t0|] eqn:Hl; [|done].
    destruct (bool_decide _); [|done].
    cbn. split; [done|]. rewrite lookup_alter. case_decide; [|done].
    subst. by rewrite Hg.
  - unfold delete_task. cbn. split; [done|]. rewrite lookup_delete.
    by case_decide.
Qed.

Lemma gone_apply_ops os d i :
  i <= task_seq d -> tasks d !! i = None -> tasks (apply_ops cfg os d) !! i = None.
Proof.
  revert d. induction os as [|o os IH]; intros d Hi Hg; [done|].
  unfold apply_ops. cbn [foldl].
  destruct (gone_apply_op o d i Hi Hg) as [Hi' Hg']. by apply IH.
Qed.

End Histories.

(** Once the flag of a threshold is set for a task, no history of scans,
    insertions, edits, completions and deletions makes the scheduler call
    the channel for that task and threshold again: moving the deadline
    with [edit_task] does not re-arm a reminder that was sent. *)
Theorem sent_reminder_never_rearmed cfg d i T t os :
  ids_below_seq d ->
  tasks d !! i = Some t ->
  flag T t = true ->
  count (is_send i T) (run_ops cfg os d).2 = 0%nat.
Proof.
  intros Hwf Hl Hf. apply closed_run_ops; [by eapply Hwf|].
  unfold closed. by rewrite Hl.
Qed.

Lemma sent_reminder_never_rearmed_witness :
  count (is_send 1 T2h)
    (run_ops Sample.cfg
       [OpEdit 1 "A" "moved" (Some 1) (Some (180 * US_PER_MINUTE + UZB_TIMEZONE));
        OpCycle Sample.world_ok (60 * US_PER_MINUTE)]
       Sample.store_sent).2 = 0%nat.
Proof.
  apply (sent_reminder_never_rearmed Sample.cfg Sample.store_sent 1 T2h
           (mk_task "A" None (Some 1)
              (Some (mk_datetime (120 * US_PER_MINUTE + UZB_TIMEZONE) None))
              pending None None true true true)); [|reflexivity|reflexivity].
  intros j t' H. destruct (decide (j = 1)) as [->|Hne]; [by vm_compute|].
  unfold Sample.store_sent in H. cbn [tasks] in H.
  by rewrite lookup_singleton_ne in H.
Defined.

(** A task that was completed by its assignee or deleted gets no call of
    the channel in any later history: [edit_task] does not reopen a
    completed task, and the id of a deleted task is not given to a new
    one. *)
Theorem completed_or_deleted_never_reminded cfg d i t os :
  ids_below_seq d ->
  tasks d !! i = Some t ->
  count (is_send_to i) (run_ops cfg os (delete_task i d)).2 = 0%nat
  /\ tasks (apply_ops cfg os (delete_task i d)) !! i = None
  /\ (forall u note utc,
        assigned_to t = Some u ->
        count (is_send_to i) (run_ops cfg os (complete_task i u note utc d)).2 = 0%nat).
Proof.
  intros Hwf Hl. pose proof (Hwf i t Hl) as Hi. split_and!.
  - apply muted_run_ops; [done|]. unfold muted, delete_task. cbn.
    by rewrite lookup_delete_eq.
  - apply gone_apply_ops; [done|]. unfold delete_task. cbn. by rewrite lookup_delete_eq.
  - intros u note utc Ha. apply muted_run_ops.
    + unfold complete_task. rewrite Hl. by destruct (bool_decide _).
    + unfold muted, complete_task. rewrite Hl, bool_decide_true by done. cbn.
      by rewrite lookup_alter_eq, Hl.
Qed.

Lemma completed_or_deleted_never_reminded_witness :
  count (is_send_to 1)
    (run_ops Sample.cfg [OpCycle Sample.world_ok 0]
       (complete_task 1 1 "done" 0 Sample.store1)).2 = 0%nat.
Proof.
  assert (ids_below_seq Sample.store1) as Hwf.
  { intros j t' H. destruct (decide (j = 1)) as [->|Hne]; [by vm_compute|].
    unfold Sample.store1 in H. cbn [tasks] in H.
    by rewrite lookup_singleton_ne in H. }
  apply (proj2 (proj2 (completed_or_deleted_never_reminded Sample.cfg Sample.store1 1
                         (Sample.task_in "A" 1 120) [OpCycle Sample.world_ok 0]
                         Hwf eq_refl))).
  reflexivity.
Defined.

(* ===================================================================== *)
(** ** Further properties of the channel and of the handlers *)
(* ===================================================================== *)

(** [send_telegram_message] returns true exactly when a token is
    configured, the chat id is not empty and the POST answered with status
    200; any other status and any exception of the POST give false. It
    makes one POST when token and chat id are there and none otherwise; it
    never tries twice. *)
Theorem send_true_iff_posted_200 cfg post k c m :
  ((send_telegram_message cfg post k c m).1.1 = true <->
   nonempty (TELEGRAM_BOT_TOKEN cfg) = true /\ truthy c = true /\ post k = Some 200)
  /\ (send_telegram_message cfg post k c m).1.2
     = (if nonempty (TELEGRAM_BOT_TOKEN cfg) && truthy c then S k else k)
  /\ count is_post (send_telegram_message cfg post k c m).2
     = (if nonempty (TELEGRAM_BOT_TOKEN cfg) && truthy c then 1 else 0)%nat.
Proof.
  unfold send_telegram_message.
  destruct (nonempty (TELEGRAM_BOT_TOKEN cfg)), (truthy c); cbn;
    try (split; [split; [done|by intros (? & ? & ?)]|done]).
  destruct (post k) as [code|]; cbn.
  - split; [|done]. split.
    + by intros ->%Z.eqb_eq.
    + by intros (_ & _ & [= ->]).
  - split; [|done]. split; [done|by intros (_ & _ & ?)].
Qed.

Section Insert.





End Insert.



(** The store of a fresh installation has every id below the counter, and
    every scan and every handler keeps it so: the condition under which
    ids are never given out twice holds in every store the application
    can reach. *)
Theorem ids_stay_below_seq cfg os d :
  ids_below_seq empty_db
  /\ (ids_below_seq d -> ids_below_seq (apply_ops cfg os d)).
Proof.
  split; [intros i t; unfold empty_db; cbn [tasks]; by rewrite lookup_empty|].
  revert d. induction os as [|o os IH]; intros d Hwf; [done|].
  unfold apply_ops. cbn [foldl]. apply IH. clear IH.
  intros i t. destruct o as [e utc|ti de a due|id ti de a due|id u note utc|id];
    cbn [apply_op].
  - rewrite cycle_task_seq. intros Hl.
    destruct (tasks d !! i) as [t0|] eqn:Hl0; [by eapply Hwf|].
    apply (cycle_keeps_ids cfg e utc d) in Hl0. congruence.
  - unfold add_task. destruct a as [uid|]; [|apply Hwf].
    destruct (nonempty ti && fits_int64 uid); [|apply Hwf]. cbn.
    pose proof (next_id_above d). rewrite lookup_insert. case_decide; [lia|].
    intros Hl. specialize (Hwf i t Hl). lia.
  - unfold edit_task. destruct (tasks d !! id) as [t0|] eqn:Hl; [|apply Hwf].
    destruct a as [uid|]; [|apply Hwf]. destruct (nonempty ti && fits_int64 uid); [|apply Hwf]. cbn.
    rewrite lookup_alter. case_decide; [|apply Hwf]. subst. rewrite Hl. intros _.
    by eapply Hwf.
  - unfold complete_task. destruct (tasks d !! id) as [t0|] eqn:Hl; [|apply Hwf].
    destruct (bool_decide _); [|apply Hwf]. cbn.
    rewrite lookup_alter. case_decide; [|apply Hwf]. subst. rewrite Hl. intros _.
    by eapply Hwf.
  - unfold delete_task. cbn. rewrite lookup_delete. case_decide; [done|apply Hwf].
Qed.

Lemma ids_stay_below_seq_witness :
  ids_below_seq
    (apply_ops Sample.cfg
       [OpAdd "A" "text" (Some 1) (Some 0); OpDelete 1; OpAdd "B" "text" (Some 1) None]
       empty_db).
Proof.
  destruct (ids_stay_below_seq Sample.cfg
              [OpAdd "A" "text" (Some 1) (Some 0); OpDelete 1; OpAdd "B" "text" (Some 1) None]
              empty_db) as [H0 H].
  apply H, H0.
Defined.

(* ===================================================================== *)
(** ** Further properties of the start-up guard *)
(* ===================================================================== *)

Section GuardProgress.

Import Guard.

Lemma invariant_one_loop s : invariant s -> (0 < returned s)%nat -> loops s = 1%nat.
Proof.
  intros [I1 I2 I3 I4 I5 I6] Hr. rewrite I3, (I6 Hr). unfold started_not_flagged.
  destruct (reminder_lock s) as [h|] eqn:Hlock; [|done].
  destruct (pc_of s h) eqn:Hpc; try done.
  assert (reminder_thread_started s = false) by (apply (I4 h); auto).
  rewrite (I6 Hr) in *. done.
Qed.

Lemma run_app (l1 l2 : list nat) s : run (l1 ++ l2) s = run l2 (run l1 s).
Proof. unfold run. apply foldl_app. Qed.

Lemma step_unlock s h :
  pc_of s h = AtUnlock ->
  reminder_lock (step s h) = None /\ returned (step s h) = S (returned s)
  /\ reminder_thread_started (step s h) = reminder_thread_started s.
Proof. intros Hpc. unfold step. by rewrite Hpc. Qed.

Lemma step_set s h :
  pc_of s h = AtSet -> pc_of (step s h) h = AtUnlock.
Proof. intros Hpc. unfold step. rewrite Hpc, pc_of_goto. by rewrite decide_True. Qed.

Lemma step_spawn s h :
  pc_of s h = AtSpawn -> pc_of (step s h) h = AtSet.
Proof. intros Hpc. unfold step. rewrite Hpc, pc_of_goto. by rewrite decide_True. Qed.

Lemma step_check s h :
  pc_of s h = AtCheck ->
  pc_of (step s h) h = AtUnlock \/ pc_of (step s h) h = AtSpawn.
Proof.
  intros Hpc. unfold step. rewrite Hpc, pc_of_goto, decide_True by done.
  destruct (reminder_thread_started s); auto.
Qed.

(** Whoever holds [reminder_lock] gives it back within four of its own
    steps, whatever the other callers did before; at that point the flag
    is set and exactly one [check_reminders] thread has been started. No
    caller can be kept waiting for ever by a caller that goes on. *)
Theorem lock_released_by_holder (schedule : list nat) (h : nat) :
  reminder_lock (run schedule init) = Some h ->
  exists n, (n <= 4)%nat
    /\ reminder_lock (run (schedule ++ replicate n h) init) = None
    /\ reminder_thread_started (run (schedule ++ replicate n h) init) = true
    /\ loops (run (schedule ++ replicate n h) init) = 1%nat.
Proof.
  intros Hlock.
  pose proof (invariant_run schedule init invariant_init) as Hinv.
  set (s := run schedule init) in *.
  assert (forall n, (0 < n)%nat ->
            pc_of (run (replicate (n - 1) h) s) h = AtUnlock ->
            reminder_lock (run (schedule ++ replicate n h) init) = None
            /\ reminder_thread_started (run (schedule ++ replicate n h) init) = true
            /\ loops (run (schedule ++ replicate n h) init) = 1%nat) as Hfin.
  { intros n Hn Hpc.
    pose proof (invariant_run (schedule ++ replicate n h) init invariant_init) as Hinv'.
    replace n with (n - 1 + 1)%nat in Hinv' |- * by lia.
    rewrite replicate_add, !run_app in Hinv' |- *. fold s in Hinv' |- *.
    cbn [replicate run foldl] in Hinv' |- *.
    destruct (step_unlock _ _ Hpc) as (Hl & Hr & Hst).
    assert (0 < returned (step (run (replicate (n - 1) h) s) h))%nat as Hpos by lia.
    split; [done|]. split.
    - by apply (inv_returned _ Hinv').
    - by apply invariant_one_loop. }
  pose proof (inv_holder _ Hinv h Hlock) as Hin. unfold inside in Hin.
  destruct (pc_of s h) eqn:Hpc; try done.
  - destruct (step_check s h Hpc) as [H1|H1].
    + exists 2%nat. split; [lia|]. by apply Hfin; [lia|].
    + exists 4%nat. split; [lia|]. apply Hfin; [lia|]. cbn.
      by apply step_set, step_spawn.
  - exists 3%nat. split; [lia|]. apply Hfin; [lia|]. cbn. by apply step_set, step_spawn.
  - exists 2%nat. split; [lia|]. apply Hfin; [lia|]. cbn. by apply step_set.
  - exists 1%nat. split; [lia|]. by apply Hfin; [lia|].
Qed.

Lemma lock_released_by_holder_witness :
  exists n, (n <= 4)%nat
    /\ reminder_lock (run ([0; 1; 0]%nat ++ replicate n 0%nat) init) = None
    /\ reminder_thread_started (run ([0; 1; 0]%nat ++ replicate n 0%nat) init) = true
    /\ loops (run ([0; 1; 0]%nat ++ replicate n 0%nat) init) = 1%nat.
Proof. apply (lock_released_by_holder [0; 1; 0]%nat 0%nat). reflexivity. Defined.

End GuardProgress.

(* ===================================================================== *)
(** ** Accounts *)
(* ===================================================================== *)

Section AccountFacts.

Import Accounts.

Variable hash : string -> string.

Lemma taken_true (u : string) (m : gmap Z account) :
  taken u m = true <-> exists i a, m !! i = Some a /\ name_of a = u.
Proof.
  unfold taken. rewrite existsb_exists. split.
  - intros ([i a] & Hin & Heq). apply list_elem_of_In, elem_of_map_to_list in Hin.
    apply String.eqb_eq in Heq. by exists i, a.
  - intros (i & a & Hl & Heq). exists (i, a). split.
    + by apply list_elem_of_In, elem_of_map_to_list.
    + by apply String.eqb_eq.
Qed.

Lemma taken_false (u : string) (m : gmap Z account) (i : Z) (a : account) :
  taken u m = false -> m !! i = Some a -> name_of a <> u.
Proof.
  intros Hf Hl Heq. assert (taken u m = true) as Ht; [|congruence].
  apply taken_true. by exists i, a.
Qed.

Lemma max_key_ge (m : gmap Z account) (j : Z) (a : account) :
  m !! j = Some a -> j <= max_key m.
Proof.
  unfold max_key. revert j a.
  apply (map_fold_weak_ind
           (fun r (m : gmap Z account) => forall j a, m !! j = Some a -> j <= r)).
  - intros j a. by rewrite lookup_empty.
  - intros i x m' r Hnone IH j a. rewrite lookup_insert. case_decide.
    + intros _. subst. lia.
    + intros Hl. specialize (IH j a Hl). lia.
Qed.

Lemma next_user_id_fresh (t : table) : rows t !! next_user_id t = None.
Proof.
  destruct (rows t !! next_user_id t) as [a|] eqn:Hl; [|done].
  apply max_key_ge in Hl. unfold next_user_id in Hl. lia.
Qed.

(** What an INSERT that went through did. *)
Lemma insert_user_Some (u : user) (pw : string) (t t' : table) :
  insert_user u pw t = Some t' ->
  taken (username u) (rows t) = false
  /\ t' = mk_table (<[next_user_id t := mk_account u pw]> (rows t)) (next_user_id t).
Proof.
  unfold insert_user. destruct (taken _ _); [done|]. by intros [= <-].
Qed.

Lemma insert_user_None (u : user) (pw : string) (t : table) :
  insert_user u pw t = None <-> taken (username u) (rows t) = true.
Proof. unfold insert_user. by destruct (taken _ _). Qed.

Lemma insert_user_lookup (u : user) (pw : string) (t t' : table) (i : Z) (a : account) :
  insert_user u pw t = Some t' -> rows t !! i = Some a -> rows t' !! i = Some a.
Proof.
  intros [_ ->]%insert_user_Some Hl. cbn.
  rewrite lookup_insert_ne; [done|].
  intros <-. by rewrite next_user_id_fresh in Hl.
Qed.

Lemma insert_user_unique (u : user) (pw : string) (t t' : table) :
  insert_user u pw t = Some t' -> unique_names t -> unique_names t'.
Proof.
  intros [Hfree ->]%insert_user_Some Hun i j a b. cbn.
  rewrite !lookup_insert. repeat case_decide; subst; try done.
  - intros [= <-] Hl Heq. cbn in Heq. by destruct (taken_false _ _ _ _ Hfree Hl).
  - intros Hl [= <-] Heq. cbn in Heq. by destruct (taken_false _ _ _ _ Hfree Hl).
  - apply Hun.
Qed.

(** The first row of a non-empty result. *)
Lemma head_elem {A} (l : list A) (x : A) : x ∈ l -> exists y, head l = Some y.
Proof. destruct l as [|y l]; [by intros ?%elem_of_nil|]. by exists y. Qed.

Lemma head_in {A} (l : list A) (x : A) : head l = Some x -> x ∈ l.
Proof. destruct l as [|y l]; [done|]. intros [= ->]. apply list_elem_of_here. Qed.

Lemma login_Some (u p : string) (t : table) (s : session) :
  login hash u p t = Some s ->
  nonempty u = true /\ nonempty p = true
  /\ exists a, rows t !! session_user_id s = Some a /\ name_of a = u
               /\ acc_password a = hash p /\ s = session_of (session_user_id s) a.
Proof.
  unfold login. destruct (nonempty u); [|done]. destruct (nonempty p); [|done]. cbn.
  intros Hh%head_in. apply list_elem_of_omap in Hh as ([i a] & Hin & Hf).
  apply elem_of_map_to_list in Hin. cbn in Hf.
  destruct (String.eqb (name_of a) u) eqn:E1; [|done].
  destruct (String.eqb (acc_password a) (hash p)) eqn:E2; [|done].
  injection Hf as <-. apply String.eqb_eq in E1, E2.
  split; [done|]. split; [done|]. by exists a.
Qed.

Lemma login_finds (u p : string) (t : table) (i : Z) (a : account) :
  nonempty u = true -> nonempty p = true ->
  rows t !! i = Some a -> name_of a = u -> acc_password a = hash p ->
  exists s, login hash u p t = Some s.
Proof.
  intros Hu Hp Hl Hn Hpw. unfold login. rewrite Hu, Hp. cbn.
  apply (head_elem _ (session_of i a)). apply list_elem_of_omap.
  exists (i, a). split; [by apply elem_of_map_to_list|]. cbn.
  by rewrite (proj2 (String.eqb_eq _ _) Hn), (proj2 (String.eqb_eq _ _) Hpw).
Qed.

Lemma login_unique (u p : string) (t : table) (i : Z) (a : account) :
  unique_names t ->
  nonempty u = true -> nonempty p = true ->
  rows t !! i = Some a -> name_of a = u -> acc_password a = hash p ->
  login hash u p t = Some (session_of i a).
Proof.
  intros Hun Hu Hp Hl Hn Hpw.
  destruct (login_finds u p t i a Hu Hp Hl Hn Hpw) as [s Hs]. rewrite Hs. f_equal.
  destruct (login_Some u p t s Hs) as (_ & _ & b & Hlb & Hnb & _ & ->).
  assert (session_user_id s = i) as Hi.
  { apply (Hun _ _ b a); [done|done|congruence]. }
  rewrite Hi in Hlb |- *. congruence.
Qed.

(** Replacing a row by one that keeps its name, or takes a free one. *)
Lemma unique_replace (t : table) (id : Z) (a0 new : account) (seq : Z) :
  unique_names t -> rows t !! id = Some a0 ->
  name_of new = name_of a0 \/ taken (name_of new) (rows t) = false ->
  unique_names (mk_table (<[id := new]> (rows t)) seq).
Proof.
  intros Hun Hl0 Hname i j a b. cbn.
  rewrite !lookup_insert. repeat case_decide; subst; try done.
  - intros [= <-] Hl Heq. destruct Hname as [Hsame|Hfree].
    + symmetry. apply (Hun _ _ b a0); [done|done|congruence].
    + by destruct (taken_false _ _ _ _ Hfree Hl).
  - intros Hl [= <-] Heq. destruct Hname as [Hsame|Hfree].
    + apply (Hun _ _ a a0); [done|done|congruence].
    + by destruct (taken_false _ _ _ _ Hfree Hl).
  - apply Hun.
Qed.

Lemma unique_serve (r : request) (t : table) :
  unique_names t -> unique_names (serve hash r t).
Proof.
  intros Hun. destruct r as [|u p fn chat|id|id u p fn chat|s nu np cp cur]; cbn [serve].
  - unfold init_db. destruct (insert_user _ _ t) as [t'|] eqn:Hi; [|done].
    by eapply insert_user_unique.
  - unfold xodimlar_post. destruct (nonempty u && nonempty p); [|done].
    destruct (insert_user _ _ t) as [t'|] eqn:Hi; [|done].
    by eapply insert_user_unique.
  - unfold delete_xodim. destruct (rows t !! id) as [a|]; [|done].
    destruct (is_xodim a); [|done]. intros i j x y. cbn.
    rewrite !lookup_delete. repeat case_decide; try done. apply Hun.
  - unfold edit_xodim. destruct (rows t !! id) as [a|] eqn:Hl; [|done].
    destruct (is_xodim a); [|done]. destruct (nonempty u); [|done].
    destruct (negb (String.eqb u (name_of a)) && taken u (rows t)) eqn:E; [done|].
    eapply unique_replace; [done|done|]. cbn.
    apply andb_false_iff in E as [E|E]; [|by right].
    left. apply negb_false_iff in E. by apply String.eqb_eq in E.
  - unfold change_profile. destruct (rows t !! session_user_id s) as [a|] eqn:Hl; [|done].
    destruct (negb (String.eqb (hash cur) (acc_password a))); [done|].
    destruct (nonempty nu && negb (String.eqb nu (session_username s))) eqn:Hre;
      cbn [andb orb].
    + destruct (taken nu (rows t)) eqn:Ht; [done|].
      destruct (nonempty np && negb (String.eqb np cp)); [done|].
      destruct (nonempty np && (py_len np <? 4)%nat); [done|]. cbn [fst].
      eapply unique_replace; [done|done|]. by right.
    + destruct (nonempty np && negb (String.eqb np cp)); [done|].
      destruct (nonempty np && (py_len np <? 4)%nat); [done|].
      destruct (nonempty np); [|done]. cbn [fst].
      eapply unique_replace; [done|done|]. by left.
Qed.

End AccountFacts.

(** [login] opens a session only for a non-empty username and password
    that match a row of [users] (the username as stored, the password by
    its digest), and the session carries the id, name and role of that
    row; whenever such a row exists a session is opened; and when
    usernames are unique it is the session of that very row. *)
Theorem login_sound_and_complete hash u p t :
  (forall s,
      Accounts.login hash u p t = Some s ->
      nonempty u = true /\ nonempty p = true
      /\ exists a,
           Accounts.rows t !! Accounts.session_user_id s = Some a
           /\ Accounts.name_of a = u /\ Accounts.acc_password a = hash p
           /\ s = Accounts.session_of (Accounts.session_user_id s) a)
  /\ (forall i a,
        nonempty u = true -> nonempty p = true ->
        Accounts.rows t !! i = Some a -> Accounts.name_of a = u ->
        Accounts.acc_password a = hash p ->
        exists s, Accounts.login hash u p t = Some s
                  /\ (Accounts.unique_names t -> s = Accounts.session_of i a)).
Proof.
  split; [apply login_Some|].
  intros i a Hu Hp Hl Hn Hpw.
  destruct (login_finds hash u p t i a Hu Hp Hl Hn Hpw) as [s Hs].
  exists s. split; [done|]. intros Hun.
  rewrite (login_unique hash u p t i a Hun Hu Hp Hl Hn Hpw) in Hs. congruence.
Qed.

Lemma login_sound_and_complete_witness :
  exists s,
    Accounts.login Accounts.plain "boss" "magistr"
      (Accounts.init_db Accounts.plain Accounts.empty_table) = Some s
    /\ (Accounts.unique_names (Accounts.init_db Accounts.plain Accounts.empty_table) ->
        s = Accounts.session_of 1
              (Accounts.mk_account (mk_user "boss" boss (Some "Bosh Direktor") None)
                 "magistr")).
Proof.
  apply (proj2 (login_sound_and_complete Accounts.plain "boss" "magistr"
                  (Accounts.init_db Accounts.plain Accounts.empty_table))
           1 (Accounts.mk_account (mk_user "boss" boss (Some "Bosh Direktor") None)
                "magistr"));
    reflexivity.
Defined.

(** Usernames are unique in the empty table and stay unique under every
    request that writes [users]: the start-up insert of [init_db], adding,
    editing and deleting a xodim, and the boss changing its profile. The
    checks made by the handlers before their UPDATE are enough: none of
    them can store a name that another row carries. *)
Theorem usernames_stay_unique hash rs t :
  Accounts.unique_names Accounts.empty_table
  /\ (Accounts.unique_names t -> Accounts.unique_names (Accounts.serve_all hash rs t)).
Proof.
  split.
  - intros i j a b. unfold Accounts.empty_table. cbn. by rewrite lookup_empty.
  - revert t. induction rs as [|r rs IH]; intros t Hun; [done|].
    unfold Accounts.serve_all. cbn [foldl]. apply IH. by apply unique_serve.
Qed.

Lemma usernames_stay_unique_witness :
  Accounts.unique_names
    (Accounts.serve_all Accounts.plain
       [Accounts.ReqInit; Accounts.ReqAdd "ali" "pw" "Ali" "42";
        Accounts.ReqAdd "ali" "other" "Ali 2" EmptyString;
        Accounts.ReqEdit 2 "boss" EmptyString "Ali" "42"]
       Accounts.empty_table).
Proof.
  destruct (usernames_stay_unique Accounts.plain
              [Accounts.ReqInit; Accounts.ReqAdd "ali" "pw" "Ali" "42";
               Accounts.ReqAdd "ali" "other" "Ali 2" EmptyString;
               Accounts.ReqEdit 2 "boss" EmptyString "Ali" "42"]
              Accounts.empty_table) as [H0 H].
  apply H, H0.
Defined.

(** The pages that manage xodims cannot touch a boss account: adding a
    xodim, [delete_xodim] and [edit_xodim] (whatever id they are called
    with) and the start-up insert leave every row with role boss exactly
    as it was, password included. *)
Theorem xodim_pages_keep_boss_rows hash t i a :
  Accounts.rows t !! i = Some a ->
  Accounts.is_xodim a = false ->
  (forall u p fn chat,
      Accounts.rows (Accounts.xodimlar_post hash u p fn chat t) !! i = Some a)
  /\ (forall id, Accounts.rows (Accounts.delete_xodim id t) !! i = Some a)
  /\ (forall id u p fn chat,
        Accounts.rows (Accounts.edit_xodim hash id u p fn chat t) !! i = Some a)
  /\ Accounts.rows (Accounts.init_db hash t) !! i = Some a.
Proof.
  intros Hl Hb. split_and!.
  - intros u p fn chat. unfold Accounts.xodimlar_post.
    destruct (nonempty u && nonempty p); [|done].
    destruct (Accounts.insert_user _ _ t) as [t'|] eqn:Hi; [|done].
    by eapply insert_user_lookup.
  - intros id. unfold Accounts.delete_xodim.
    destruct (Accounts.rows t !! id) as [a0|] eqn:Hl0; [|done].
    destruct (Accounts.is_xodim a0) eqn:Hx; [|done]. cbn.
    rewrite lookup_delete_ne; [done|]. intros ->. congruence.
  - intros id u p fn chat. unfold Accounts.edit_xodim.
    destruct (Accounts.rows t !! id) as [a0|] eqn:Hl0; [|done].
    destruct (Accounts.is_xodim a0) eqn:Hx; [|done].
    destruct (nonempty u); [|done]. destruct (negb _ && _); [done|]. cbn.
    rewrite lookup_insert_ne; [done|]. intros ->. congruence.
  - unfold Accounts.init_db.
    destruct (Accounts.insert_user _ _ t) as [t'|] eqn:Hi; [|done].
    by eapply insert_user_lookup.
Qed.

Lemma xodim_pages_keep_boss_rows_witness :
  Accounts.rows
    (Accounts.delete_xodim 1 (Accounts.init_db Accounts.plain Accounts.empty_table)) !! 1
  = Some (Accounts.mk_account (mk_user "boss" boss (Some "Bosh Direktor") None) "magistr").
Proof.
  apply (proj1 (proj2 (xodim_pages_keep_boss_rows Accounts.plain
                         (Accounts.init_db Accounts.plain Accounts.empty_table) 1
                         (Accounts.mk_account
                            (mk_user "boss" boss (Some "Bosh Direktor") None) "magistr")
                         eq_refl eq_refl))).
Defined.

Section ProfileFacts.

Import Accounts.

Variable hash : string -> string.

(** The ways through [change_profile]. *)
Lemma change_profile_cases s nu np cp cur t :
  change_profile hash s nu np cp cur t = (t, s)
  \/ exists a,
       rows t !! session_user_id s = Some a
       /\ hash cur = acc_password a
       /\ (nonempty np = true -> np = cp /\ (4 <= py_len np)%nat)
       /\ (nonempty nu && negb (String.eqb nu (session_username s)) = true ->
           taken nu (rows t) = false)
       /\ change_profile hash s nu np cp cur t
          = (mk_table
               (<[session_user_id s :=
                    mk_account
                      (mk_user
                         (if nonempty nu && negb (String.eqb nu (session_username s))
                          then nu else name_of a)
                         (user_role (acc_user a)) (full_name (acc_user a))
                         (telegram_chat_id (acc_user a)))
                      (if nonempty np then hash np else acc_password a)]> (rows t))
               (user_seq t),
             if nonempty nu && negb (String.eqb nu (session_username s))
             then mk_session (session_user_id s) nu (session_role s) (session_full_name s)
             else s).
Proof.
  unfold change_profile.
  destruct (rows t !! session_user_id s) as [a|] eqn:Hl; [|by left].
  destruct (String.eqb (hash cur) (acc_password a)) eqn:Hcur; cbn [negb]; [|by left].
  apply String.eqb_eq in Hcur.
  destruct (nonempty nu && negb (String.eqb nu (session_username s))) eqn:Hre;
    cbn [andb orb].
  - destruct (taken nu (rows t)) eqn:Ht; [by left|].
    destruct (nonempty np) eqn:Hnp; cbn [andb].
    + destruct (String.eqb np cp) eqn:Hcp; cbn [negb]; [|by left].
      destruct (py_len np <? 4)%nat eqn:Hlen; [by left|].
      right. exists a. apply String.eqb_eq in Hcp. apply Nat.ltb_ge in Hlen.
      by split_and!.
    + right. exists a. by split_and!.
  - destruct (nonempty np) eqn:Hnp; cbn [andb]; [|by left].
    destruct (String.eqb np cp) eqn:Hcp; cbn [negb]; [|by left].
    destruct (py_len np <? 4)%nat eqn:Hlen; [by left|].
    right. exists a. apply String.eqb_eq in Hcp. apply Nat.ltb_ge in Hlen.
    by split_and!.
Qed.

(** The table after a change of the password only. *)
Lemma change_password_result s a np cur t :
  rows t !! session_user_id s = Some a ->
  hash cur = acc_password a ->
  nonempty np = true -> (4 <= py_len np)%nat ->
  (change_profile hash s EmptyString np np cur t).1
  = mk_table
      (<[session_user_id s :=
           mk_account
             (mk_user (name_of a) (user_role (acc_user a)) (full_name (acc_user a))
                (telegram_chat_id (acc_user a)))
             (hash np)]> (rows t))
      (user_seq t).
Proof.
  intros Hl Hcur Hnp Hlen. unfold change_profile.
  rewrite Hl, Hcur, String.eqb_refl, Hnp. cbn [negb andb orb].
  change (nonempty EmptyString) with false. cbn [andb orb].
  rewrite String.eqb_refl. cbn [negb].
  by rewrite (proj2 (Nat.ltb_ge _ _) Hlen).
Qed.

End ProfileFacts.

(** [change_profile] writes at most the row of the session. It changes
    nothing unless the current password that was typed has the stored
    digest. It never changes the role. A new password is stored only if
    it was typed twice the same and has at least 4 characters, and what
    is stored is its digest; a new username is stored only if no row
    carries it. *)
Theorem change_profile_guards hash s nu np cp cur t :
  (forall j, j <> Accounts.session_user_id s ->
     Accounts.rows (Accounts.change_profile hash s nu np cp cur t).1 !! j
     = Accounts.rows t !! j)
  /\ (forall a,
        Accounts.rows t !! Accounts.session_user_id s = Some a ->
        hash cur <> Accounts.acc_password a ->
        Accounts.change_profile hash s nu np cp cur t = (t, s))
  /\ (forall a a',
        Accounts.rows t !! Accounts.session_user_id s = Some a ->
        Accounts.rows (Accounts.change_profile hash s nu np cp cur t).1
          !! Accounts.session_user_id s = Some a' ->
        user_role (Accounts.acc_user a') = user_role (Accounts.acc_user a)
        /\ (Accounts.acc_password a' <> Accounts.acc_password a ->
            hash cur = Accounts.acc_password a /\ np = cp
            /\ (4 <= Accounts.py_len np)%nat /\ Accounts.acc_password a' = hash np)
        /\ (Accounts.name_of a' <> Accounts.name_of a ->
            hash cur = Accounts.acc_password a /\ Accounts.name_of a' = nu
            /\ Accounts.taken nu (Accounts.rows t) = false)).
Proof.
  destruct (change_profile_cases hash s nu np cp cur t)
    as [Hsame|(a0 & Hl0 & Hcur & Hpw & Hname & Heq)].
  - rewrite Hsame. cbn. split; [done|]. split; [done|].
    intros a a' Hl Hl'. assert (a' = a) as -> by congruence. done.
  - rewrite Heq. cbn. split_and!.
    + intros j Hj. by rewrite lookup_insert_ne.
    + intros a Hl Hne. congruence.
    + intros a a' Hl. assert (a0 = a) as -> by congruence.
      rewrite lookup_insert_eq. intros [= <-]. cbn. split; [done|]. split.
      * destruct (nonempty np); [|done]. intros _. destruct Hpw as [? ?]; done.
      * unfold Accounts.name_of at 1. cbn.
        destruct (nonempty nu && negb _); [|done]. intros _. auto.
Qed.

Lemma change_profile_guards_witness :
  Accounts.change_profile Accounts.plain (Accounts.mk_session 1 "boss" boss None)
    "admin" "secret" "secret" "wrong"
    (Accounts.init_db Accounts.plain Accounts.empty_table)
  = (Accounts.init_db Accounts.plain Accounts.empty_table,
     Accounts.mk_session 1 "boss" boss None).
Proof.
  apply (proj1 (proj2 (change_profile_guards Accounts.plain
                         (Accounts.mk_session 1 "boss" boss None)
                         "admin" "secret" "secret" "wrong"
                         (Accounts.init_db Accounts.plain Accounts.empty_table)))
           (Accounts.mk_account (mk_user "boss" boss (Some "Bosh Direktor") None) "magistr"));
    [reflexivity|].
  unfold Accounts.plain. cbn. discriminate.
Defined.

(** Round trips through [login]. A xodim that was just added with a free
    username logs in with the password that was typed and gets a session
    with role xodim; adding under a username that is taken changes
    nothing. After the boss changed the password, the new password opens
    the session of the same account, and a password with another digest
    does not. *)
Theorem stored_passwords_log_in hash t :
  Accounts.unique_names t ->
  (forall u p fn chat,
      nonempty u = true -> nonempty p = true ->
      Accounts.taken u (Accounts.rows t) = false ->
      Accounts.login hash u p (Accounts.xodimlar_post hash u p fn chat t)
      = Some (Accounts.mk_session (Accounts.next_user_id t) u xodim (or_none fn)))
  /\ (forall u p fn chat,
        Accounts.taken u (Accounts.rows t) = true ->
        Accounts.xodimlar_post hash u p fn chat t = t)
  /\ (forall s a np cur q,
        Accounts.rows t !! Accounts.session_user_id s = Some a ->
        nonempty (Accounts.name_of a) = true ->
        hash cur = Accounts.acc_password a ->
        nonempty np = true -> (4 <= Accounts.py_len np)%nat ->
        Accounts.login hash (Accounts.name_of a) np
          (Accounts.change_profile hash s EmptyString np np cur t).1
        = Some (Accounts.session_of (Accounts.session_user_id s) a)
        /\ (hash q <> hash np ->
            Accounts.login hash (Accounts.name_of a) q
              (Accounts.change_profile hash s EmptyString np np cur t).1 = None)).
Proof.
  intros Hun. split_and!.
  - intros u p fn chat Hu Hp Hfree. unfold Accounts.xodimlar_post. rewrite Hu, Hp. cbn [andb].
    destruct (Accounts.insert_user _ _ t) as [t'|] eqn:Hi;
      [|apply insert_user_None in Hi; cbn in Hi; congruence].
    pose proof (insert_user_unique _ _ _ _ Hi Hun) as Hun'.
    apply insert_user_Some in Hi as [_ ->].
    apply (login_unique hash u p _ (Accounts.next_user_id t)
             (Accounts.mk_account (mk_user u xodim (or_none fn) (or_none chat)) (hash p)));
      try done.
    cbn. by rewrite lookup_insert_eq.
  - intros u p fn chat Ht. unfold Accounts.xodimlar_post.
    destruct (nonempty u && nonempty p); [|done].
    by rewrite (proj2 (insert_user_None (mk_user u xodim (or_none fn) (or_none chat))
                         (hash p) t) Ht).
  - intros s a np cur q Hl Hn Hcur Hnp Hlen.
    rewrite (change_password_result hash s a np cur t Hl Hcur Hnp Hlen).
    set (a' := Accounts.mk_account
                 (mk_user (Accounts.name_of a) (user_role (Accounts.acc_user a))
                    (full_name (Accounts.acc_user a))
                    (telegram_chat_id (Accounts.acc_user a)))
                 (hash np)).
    set (t' := Accounts.mk_table (<[Accounts.session_user_id s := a']> (Accounts.rows t))
                 (Accounts.user_seq t)).
    assert (Accounts.unique_names t') as Hun'.
    { eapply unique_replace; [done|done|]. by left. }
    assert (Accounts.rows t' !! Accounts.session_user_id s = Some a') as Hl'.
    { cbn. by rewrite lookup_insert_eq. }
    split.
    + by rewrite (login_unique hash _ np t' _ a' Hun' Hn Hnp Hl').
    + intros Hq. destruct (Accounts.login hash (Accounts.name_of a) q t') as [s'|] eqn:Hs;
        [exfalso|done].
      apply login_Some in Hs as (_ & _ & b & Hlb & Hnb & Hpb & _).
      assert (Accounts.session_user_id s' = Accounts.session_user_id s) as Hid.
      { by apply (Hun' _ _ b a'). }
      rewrite Hid, Hl' in Hlb. injection Hlb as <-. cbn in Hpb. congruence.
Qed.

Lemma stored_passwords_log_in_witness :
  Accounts.login Accounts.plain "ali" "pw"
    (Accounts.xodimlar_post Accounts.plain "ali" "pw" "Ali" "42"
       (Accounts.init_db Accounts.plain Accounts.empty_table))
  = Some (Accounts.mk_session 2 "ali" xodim (Some "Ali")).
Proof.
  assert (Accounts.unique_names (Accounts.init_db Accounts.plain Accounts.empty_table))
    as Hun.
  { apply unique_serve with (r := Accounts.ReqInit).
    intros i j a b. unfold Accounts.empty_table. cbn. by rewrite lookup_empty. }
  apply (proj1 (stored_passwords_log_in Accounts.plain
                  (Accounts.init_db Accounts.plain Accounts.empty_table) Hun)
           "ali" "pw" "Ali" "42"); reflexivity.
Defined.

(** The start-up insert of [init_db] writes no row while some row is named
    boss, so running it again leaves the rows as they are; the ignored
    insert still uses up an id, so every run moves the id counter on and the
    next account gets an id one higher. It looks at the name only: when no
    row is named boss (the boss renamed the account) it adds a boss account
    with the default password, and [login] with boss / magistr opens a boss
    session. Rows that are there are never touched. *)
Theorem init_db_default_boss hash t :
  (Accounts.taken "boss" (Accounts.rows t) = true ->
   Accounts.rows (Accounts.init_db hash t) = Accounts.rows t
   /\ Accounts.next_user_id (Accounts.init_db hash t) = Accounts.next_user_id t + 1)
  /\ Accounts.rows (Accounts.init_db hash (Accounts.init_db hash t))
     = Accounts.rows (Accounts.init_db hash t)
  /\ (Accounts.user_seq (Accounts.init_db hash t) = Accounts.next_user_id t
      /\ Accounts.user_seq t < Accounts.next_user_id t)
  /\ (Accounts.taken "boss" (Accounts.rows t) = false ->
      Accounts.unique_names t ->
      Accounts.login hash "boss" "magistr" (Accounts.init_db hash t)
      = Some (Accounts.mk_session (Accounts.next_user_id t) "boss" boss
                (Some "Bosh Direktor")))
  /\ (forall i a, Accounts.rows t !! i = Some a ->
                  Accounts.rows (Accounts.init_db hash t) !! i = Some a).
Proof.
  assert (forall t0, Accounts.taken "boss" (Accounts.rows t0) = true ->
                     Accounts.init_db hash t0
                     = Accounts.mk_table (Accounts.rows t0) (Accounts.next_user_id t0))
    as Hidle.
  { intros t0 Ht. unfold Accounts.init_db.
    by rewrite (proj2 (insert_user_None (mk_user "boss" boss (Some "Bosh Direktor") None)
                         (hash "magistr") t0) Ht). }
  assert (Accounts.taken "boss" (Accounts.rows (Accounts.init_db hash t)) = true) as Hthere.
  { unfold Accounts.init_db.
    destruct (Accounts.insert_user _ _ t) as [t'|] eqn:Hi.
    - apply insert_user_Some in Hi as [_ ->].
      apply taken_true. eexists _, _. cbn. split; [apply lookup_insert_eq|done].
    - by apply insert_user_None in Hi. }
  split_and!.
  - intros Ht. rewrite (Hidle t Ht). split; [done|].
    unfold Accounts.next_user_id. cbn. lia.
  - by rewrite (Hidle _ Hthere).
  - unfold Accounts.init_db.
    destruct (Accounts.insert_user _ _ t) as [t'|] eqn:Hi; [|done].
    by apply insert_user_Some in Hi as [_ ->].
  - unfold Accounts.next_user_id. lia.
  - intros Hfree Hun. unfold Accounts.init_db.
    destruct (Accounts.insert_user _ _ t) as [t'|] eqn:Hi;
      [|apply insert_user_None in Hi; cbn in Hi; congruence].
    pose proof (insert_user_unique _ _ _ _ Hi Hun) as Hun'.
    apply insert_user_Some in Hi as [_ ->].
    apply (login_unique hash "boss" "magistr" _ (Accounts.next_user_id t)
             (Accounts.mk_account (mk_user "boss" boss (Some "Bosh Direktor") None)
                (hash "magistr"))); try done.
    cbn. by rewrite lookup_insert_eq.
  - intros i a Hl. unfold Accounts.init_db.
    destruct (Accounts.insert_user _ _ t) as [t'|] eqn:Hi; [|done].
    by eapply insert_user_lookup.
Qed.

Lemma init_db_default_boss_witness :
  (Accounts.rows (Accounts.init_db Accounts.plain
                    (Accounts.init_db Accounts.plain Accounts.empty_table))
   = Accounts.rows (Accounts.init_db Accounts.plain Accounts.empty_table)
   /\ Accounts.next_user_id (Accounts.init_db Accounts.plain
                               (Accounts.init_db Accounts.plain Accounts.empty_table))
      = 3)
  /\ Accounts.login Accounts.plain "boss" "magistr"
       (Accounts.init_db Accounts.plain
          (Accounts.change_profile Accounts.plain (Accounts.mk_session 1 "boss" boss None)
             "admin" "secret" "secret" "magistr"
             (Accounts.init_db Accounts.plain Accounts.empty_table)).1)
     = Some (Accounts.mk_session 2 "boss" boss (Some "Bosh Direktor")).
Proof.
  assert (Accounts.unique_names
            (Accounts.serve_all Accounts.plain
               [Accounts.ReqInit;
                Accounts.ReqProfile (Accounts.mk_session 1 "boss" boss None)
                  "admin" "secret" "secret" "magistr"]
               Accounts.empty_table)) as Hun.
  { unfold Accounts.serve_all. cbn [foldl]. do 2 apply unique_serve.
    intros i j a b. unfold Accounts.empty_table. cbn. by rewrite lookup_empty. }
  split.
  - apply (proj1 (init_db_default_boss Accounts.plain
                    (Accounts.init_db Accounts.plain Accounts.empty_table))).
    reflexivity.
  - apply (proj1 (proj2 (proj2 (proj2 (init_db_default_boss Accounts.plain
                                (Accounts.change_profile Accounts.plain
                                   (Accounts.mk_session 1 "boss" boss None)
                                   "admin" "secret" "secret" "magistr"
                                   (Accounts.init_db Accounts.plain
                                      Accounts.empty_table)).1)))));
      [reflexivity|exact Hun].
Defined.

(** [delete_xodim] removes the user but not the tasks assigned to it:
    they stay in the table, and since the scheduler's join then finds no
    chat id for them, a scan makes no call for them and leaves their rows
    as they are. *)
Theorem deleted_xodim_tasks_silent cfg e utc t id a tks seq i tk :
  Accounts.rows t !! id = Some a ->
  Accounts.is_xodim a = true ->
  tks !! i = Some tk ->
  assigned_to tk = Some id ->
  count (is_send_to i)
    (events (cycle cfg e utc
               (mk_db (Accounts.users_of (Accounts.delete_xodim id t)) tks seq))) = 0%nat
  /\ tasks (after (cycle cfg e utc
                     (mk_db (Accounts.users_of (Accounts.delete_xodim id t)) tks seq))) !! i
     = Some tk.
Proof.
  intros Hl Hx Htk Ha.
  set (d := mk_db (Accounts.users_of (Accounts.delete_xodim id t)) tks seq).
  assert (join_chat (users d) tk = None) as Hj.
  { unfold join_chat, d, Accounts.users_of, Accounts.delete_xodim. rewrite Ha, Hl, Hx. cbn.
    by rewrite lookup_fmap, lookup_delete_eq. }
  assert (forall ev, ev ∈ events (cycle cfg e utc d) -> is_send_to i ev = false) as Hno.
  { intros ev Hin. destruct (is_send_to i ev) eqn:Hs; [|done].
    destruct (cycle_send_origin cfg e utc d ev i Hin Hs) as (t' & T & ok & Hl' & _ & Hdue & _).
    assert (t' = tk) as -> by (cbn in Hl'; congruence).
    rewrite due_no_address in Hdue; [done|by rewrite Hj]. }
  split.
  - by apply count_zero_all.
  - by rewrite cycle_untouched.
Qed.

Lemma deleted_xodim_tasks_silent_witness :
  count (is_send_to 1)
    (events (cycle Sample.cfg Sample.world_ok 0
               (mk_db (Accounts.users_of
                         (Accounts.delete_xodim 2
                            (Accounts.xodimlar_post Accounts.plain "ali" "pw" "Ali" "42"
                               (Accounts.init_db Accounts.plain Accounts.empty_table))))
                  {[1 := Sample.task_in "A" 2 120]} 1))) = 0%nat.
Proof.
  eapply (fun H1 H2 H3 H4 =>
            proj1 (deleted_xodim_tasks_silent Sample.cfg Sample.world_ok 0
                  (Accounts.xodimlar_post Accounts.plain "ali" "pw" "Ali" "42"
                     (Accounts.init_db Accounts.plain Accounts.empty_table))
                  2 (Accounts.mk_account (mk_user "ali" xodim (Some "Ali") (Some "42")) "pw")
                  {[1 := Sample.task_in "A" 2 120]} 1 1 (Sample.task_in "A" 2 120)
                  H1 H2 H3 H4));
    reflexivity.
Defined.

(* ===================================================================== *)
(** ** Notifications of the handlers *)
(* ===================================================================== *)

Section NotifyFacts.

Variable cfg : config.
Variable post : nat -> option Z.

Lemma send_posts k c m c' m' :
  EvPost c' m' ∈ (send_telegram_message cfg post k c m).2 ->
  c' = c /\ m' = m /\ nonempty (TELEGRAM_BOT_TOKEN cfg) = true /\ truthy c = true.
Proof.
  unfold send_telegram_message.
  destruct (nonempty (TELEGRAM_BOT_TOKEN cfg)); cbn; [|by intros ?%elem_of_nil].
  destruct (truthy c); cbn; [|by intros ?%elem_of_nil].
  destruct (post k); cbn; rewrite ?elem_of_cons; intros H.
  - destruct H as [[= -> ->]|H]; [done|by apply elem_of_nil in H].
  - destruct H as [[= -> ->]|[H|H]]; [done|done|by apply elem_of_nil in H].
Qed.

Lemma send_post_count k c m :
  (count is_post (send_telegram_message cfg post k c m).2 <= 1)%nat.
Proof.
  unfold send_telegram_message.
  destruct (negb _ || negb _ || negb _); [cbn; lia|]. destruct (post k); cbn; lia.
Qed.

Lemma add_task_users ti de a due d : users (add_task ti de a due d) = users d.
Proof. unfold add_task. destruct a as [uid|]; [|done]. by destruct (nonempty ti && fits_int64 uid). Qed.

End NotifyFacts.

(** The requests [add_task] and [complete_task] write the store before
    they notify, and what they write does not depend on the notification:
    the store after the request is the one of the insert or update alone,
    whatever the POST does. Each request makes at most one POST. The POST
    of [add_task] goes to the chat id of the assignee of an insert that
    was accepted; the POST of [complete_task] goes to the boss chat id
    and is made only when the caller is the assignee of the task. *)
Theorem handlers_notify_after_commit cfg post strftime :
  (forall ti de a due d,
      (Notify.add_task_request cfg post strftime ti de a due d).1 = add_task ti de a due d
      /\ (count is_post (Notify.add_task_request cfg post strftime ti de a due d).2 <= 1)%nat
      /\ (forall c m,
            EvPost c m ∈ (Notify.add_task_request cfg post strftime ti de a due d).2 ->
            nonempty (TELEGRAM_BOT_TOKEN cfg) = true /\ truthy c = true
            /\ exists uid u,
                 a = Some uid /\ nonempty ti = true
                 /\ users d !! uid = Some u /\ c = telegram_chat_id u))
  /\ (forall id su note utc d,
        (Notify.complete_task_request cfg post id su note utc d).1
        = complete_task id su note utc d
        /\ (count is_post (Notify.complete_task_request cfg post id su note utc d).2 <= 1)%nat
        /\ (forall c m,
              EvPost c m ∈ (Notify.complete_task_request cfg post id su note utc d).2 ->
              c = Some (BOSS_TELEGRAM_CHAT_ID cfg)
              /\ nonempty (TELEGRAM_BOT_TOKEN cfg) = true
              /\ exists t, tasks d !! id = Some t /\ assigned_to t = Some su)).
Proof.
  split.
  - intros ti de a due d. unfold Notify.add_task_request.
    destruct a as [uid|]; [|cbn; split_and!; [done|lia|by intros c m ?%elem_of_nil]].
    destruct (nonempty ti && fits_int64 uid) eqn:Hti;
      [|cbn; split_and!; [by rewrite Hti|lia|by intros c m ?%elem_of_nil]].
    apply andb_true_iff in Hti as [Hti _].
    cbn [fst snd]. rewrite add_task_users. unfold Notify.notify_user_new_task.
    destruct (users d !! uid) as [u|] eqn:Hu;
      [|split_and!; [done|cbn; lia|by intros c m ?%elem_of_nil]].
    destruct (truthy (telegram_chat_id u)) eqn:Hc;
      [|split_and!; [done|cbn; lia|by intros c m ?%elem_of_nil]].
    split_and!; [done|apply send_post_count|].
    intros c m (-> & _ & Htok & Htr)%send_posts. split_and!; [done|done|].
    by exists uid, u.
  - intros id su note utc d. unfold Notify.complete_task_request.
    destruct (tasks d !! id) as [t|] eqn:Hl;
      [|split_and!; [unfold complete_task; by rewrite Hl|cbn; lia
                    |by intros c m ?%elem_of_nil]].
    destruct (bool_decide (assigned_to t = Some su)) eqn:Ha;
      [|split_and!; [unfold complete_task; by rewrite Hl, Ha|cbn; lia
                    |by intros c m ?%elem_of_nil]].
    apply bool_decide_eq_true in Ha. cbn [fst snd].
    unfold Notify.notify_boss_task_completed.
    destruct (negb (nonempty (BOSS_TELEGRAM_CHAT_ID cfg)));
      [split_and!; [done|cbn; lia|by intros c m ?%elem_of_nil]|].
    destruct (tasks (complete_task id su note utc d) !! id) as [t'|];
      [|split_and!; [done|cbn; lia|by intros c m ?%elem_of_nil]].
    split_and!; [done|apply send_post_count|].
    intros c m (-> & _ & Htok & _)%send_posts. split_and!; [done|done|].
    by exists t.
Qed.

Lemma handlers_notify_after_commit_witness :
  Some "42" = Some (BOSS_TELEGRAM_CHAT_ID (mk_config "123:abc" "42"))
  /\ nonempty (TELEGRAM_BOT_TOKEN (mk_config "123:abc" "42")) = true
  /\ exists t, tasks Sample.store1 !! 1 = Some t /\ assigned_to t = Some 1.
Proof.
  apply (proj2 (proj2 (proj2 (handlers_notify_after_commit (mk_config "123:abc" "42")
                                (fun _ => Some 200) Notify.no_format)
                         1 1 "done" 0 Sample.store1))
           (Some "42")
           ("<b>Topshiriq bajarildi!</b>" +:+ LF +:+ LF +:+ "A" +:+ LF
            +:+ "Bajardi: " +:+ "Ali" +:+ LF +:+ "Izoh: " +:+ "done")).
  vm_compute. apply list_elem_of_here.
Defined.
